(** * Loose-object store and HEAD resolution of go-git's [seekable2] storage

    A shallow embedding of [storage/seekable2/internal/gitdir/gitdir.go]:
    the directory scanner ([gitdir.GitDir]) and the object store built on
    it ([seekable2.ObjectStorage]).  Go values of type [(T, error)] are
    pairs whose second component is [option error] ([None] is [nil]); a
    call either returns such a pair or panics, and it threads the two
    pieces of state the code mutates: the handle's [refs] field and the
    lines written to standard output. *)

From Stdlib Require Import Strings.String Strings.Ascii Strings.Byte.
From Stdlib Require Import NArith List Lia.
From stdpp Require Import base option list strings gmap vector.

Import ListNotations.
#[local] Open Scope string_scope.
#[local] Set Warnings "-register-all".

(** ** Strings and bytes *)

Module Strings.

(** [string(b)] for [b []byte]: a Go string is that byte sequence. *)
Definition of_bytes (b : list byte) : string := string_of_list_byte b.

(** [strings.HasPrefix(s, prefix)]. *)
Definition HasPrefix (s p : string) : bool := String.prefix p s.

(** [s[n:]], for [n] within range. *)
Fixpoint from (n : nat) (s : string) : string :=
  match n, s with
  | O, _ => s
  | S k, String _ t => from k t
  | S _, EmptyString => EmptyString
  end.

(** [strings.TrimPrefix(s, prefix)]: [s] without the leading [prefix],
    or [s] itself when it does not start with it. *)
Definition TrimPrefix (s p : string) : string :=
  if HasPrefix s p then from (String.length p) s else s.

(** The white space of [unicode.IsSpace], as [strings.TrimSpace] meets
    it in the bytes of a string.  In one byte: tab, line feed, vertical
    tab, form feed, carriage return and space. *)
Definition isSpace (c : ascii) : bool :=
  match Ascii.nat_of_ascii c with
  | 9 | 10 | 11 | 12 | 13 | 32 => true
  | _ => false
  end.

(** In two bytes: U+0085 ([c2 85]) and U+00A0 ([c2 a0]). *)
Definition isSpace2 (c1 c2 : ascii) : bool :=
  let a := Ascii.N_of_ascii c1 in
  let b := Ascii.N_of_ascii c2 in
  ((a =? 194) && ((b =? 133) || (b =? 160)))%N.

(** In three bytes: U+1680 ([e1 9a 80]), U+2000 to U+200A ([e2 80 80]
    to [e2 80 8a]), U+2028, U+2029 and U+202F ([e2 80 a8], [e2 80 a9],
    [e2 80 af]), U+205F ([e2 81 9f]) and U+3000 ([e3 80 80]). *)
Definition isSpace3 (c1 c2 c3 : ascii) : bool :=
  let a := Ascii.N_of_ascii c1 in
  let b := Ascii.N_of_ascii c2 in
  let c := Ascii.N_of_ascii c3 in
  (((a =? 225) && (b =? 154) && (c =? 128))
   || ((a =? 226) && (b =? 128)
       && (((128 <=? c) && (c <=? 138)) || (c =? 168) || (c =? 169) || (c =? 175)))
   || ((a =? 226) && (b =? 129) && (c =? 159))
   || ((a =? 227) && (b =? 128) && (c =? 128)))%N.

(** [s] without the white space it begins with.  A byte that starts no
    white-space character, be it part of another character or of none,
    ends the trimming. *)
Fixpoint trimLeft (s : string) : string :=
  match s with
  | String c1 t1 =>
      if isSpace c1 then trimLeft t1
      else
        match t1 with
        | String c2 t2 =>
            if isSpace2 c1 c2 then trimLeft t2
            else
              match t2 with
              | String c3 t3 => if isSpace3 c1 c2 c3 then trimLeft t3 else s
              | EmptyString => s
              end
        | EmptyString => s
        end
  | EmptyString => EmptyString
  end.

(** The same from the end, on the bytes in reverse order: the last
    character is white space when the bytes end with its encoding. *)
Fixpoint trimEnd (r : list ascii) : list ascii :=
  match r with
  | c1 :: t1 =>
      if isSpace c1 then trimEnd t1
      else
        match t1 with
        | c2 :: t2 =>
            if isSpace2 c2 c1 then trimEnd t2
            else
              match t2 with
              | c3 :: t3 => if isSpace3 c3 c2 c1 then trimEnd t3 else r
              | [] => r
              end
        | [] => r
        end
  | [] => []
  end.

(** [s] without the white space it ends with. *)
Definition trimRight (s : string) : string :=
  string_of_list_ascii (rev (trimEnd (rev (list_ascii_of_string s)))).

(** [strings.TrimSpace(s)]: [s] without leading and trailing white
    space, the trailing one being looked for in what the leading one has
    left. *)
Definition TrimSpace (s : string) : string := trimRight (trimLeft s).

(** [s[i:j]] for [i <= j <= len(s)]. *)
Definition slice (i j : nat) (s : string) : string :=
  String.substring i (j - i) s.

Definition hexdigit (n : N) : ascii :=
  Ascii.ascii_of_N (if (n <? 10)%N then 48 + n else 87 + n)%N.

(** Two lowercase hexadecimal digits per byte, as [hex.EncodeToString]. *)
Fixpoint hex (l : list byte) : string :=
  match l with
  | [] => EmptyString
  | b :: t =>
      let n := Byte.to_N b in
      String (hexdigit (n / 16)) (String (hexdigit (n mod 16)) (hex t))
  end.

Definition unhexdigit (c : ascii) : option N :=
  let n := Ascii.N_of_ascii c in
  if ((48 <=? n) && (n <=? 57))%N then Some (n - 48)%N
  else if ((97 <=? n) && (n <=? 102))%N then Some (n - 87)%N
  else if ((65 <=? n) && (n <=? 70))%N then Some (n - 55)%N
  else None.

(** The bytes [hex.DecodeString] has decoded when it stops: one per
    pair of hexadecimal digits, up to the first byte that is not one. *)
Fixpoint unhex (s : string) : list byte :=
  match s with
  | String a (String b t) =>
      match unhexdigit a, unhexdigit b with
      | Some x, Some y =>
          match Byte.of_N (16 * x + y) with
          | Some v => v :: unhex t
          | None => []
          end
      | _, _ => []
      end
  | _ => []
  end.

End Strings.

(** ** Hashes, object types and objects ([core], [storage/memory]) *)

(** Modelled from the spec: [core.Hash], a "fixed-length binary
    identifier (20 bytes)". *)
Abbreviation Hash := (vec byte 20).

(** Modelled from the spec: [core.ZeroHash], the "distinguished all-zero
    value". *)
Definition ZeroHash : Hash := Vector.const x00 20.

(** Modelled from the spec: [Hash.String], the hash "rendered as a
    40-character lowercase hexadecimal string". *)
Definition Hash_String (h : Hash) : string := Strings.hex (vec_to_list h).

(** [n] bytes: those of [l], cut or padded with zero bytes, as [copy]
    into a zeroed array does. *)
Fixpoint fill (n : nat) (l : list byte) : vec byte n :=
  match n with
  | O => [#]
  | S k =>
      match l with
      | [] => x00 ::: fill k []
      | b :: t => b ::: fill k t
      end
  end.

(** Modelled from the spec: [core.NewHash] is not among the sources; a
    reference file holds "a raw Hash" in its forty-character hexadecimal
    form, which this reads back into the twenty bytes. *)
Definition NewHash (s : string) : Hash := fill 20 (Strings.unhex s).

(** Modelled from the spec: the "small closed set" of type tags of
    [core.ObjectType]. *)
Inductive ObjectType := CommitObject | TreeObject | BlobObject | TagObject.

(** Modelled from the spec: [memory.NewObject] builds the "immutable
    triple {type tag, declared size, content bytes}"; the size is an
    [int64]. *)
Record Object := NewObject {
  Type_ : ObjectType;
  Size : Z;
  Content : list byte
}.

(** Modelled from the spec: [core.NewObjectSliceIter] wraps a slice of
    objects as the sequence that yields them in order. *)
Record ObjectSliceIter := NewObjectSliceIter { series : list Object }.

(** ** Errors *)

(** The error values the code meets.  An [fmt.Errorf] keeps its format
    and its arguments, each a string or an error. *)
Inductive error :=
  (** [gitdir.ErrNotFound], [errors.New("path not found")] *)
  | ErrNotFound
  (** [gitdir.ErrIdxNotFound] and [gitdir.ErrPackfileNotFound] *)
  | ErrIdxNotFound
  | ErrPackfileNotFound
  (** [zlib.ErrHeader], [zlib.ErrChecksum], [zlib.ErrDictionary] *)
  | ErrHeader
  | ErrChecksum
  | ErrDictionary
  (** [io.ErrUnexpectedEOF] *)
  | ErrUnexpectedEOF
  (** a failed system call, by its [errno] *)
  | SysError (code : errno)
  (** any other error of a collaborator, by its message *)
  | OtherError (msg : string)
  (** [fmt.Errorf(format, args...)], kept unformatted *)
  | Errorf (format : string) (args : list fmtarg)
with fmtarg :=
  | ArgString (s : string)
  | ArgError (e : error)
with errno := ENOENT | ENOTDIR | EISDIR | EACCES | EIO.

(** [os.IsNotExist]. *)
Definition IsNotExist (e : error) : bool :=
  match e with
  | SysError ENOENT => true
  | _ => false
  end.

(** [err == zlib.ErrHeader]: the comparison of two error values holds
    for the package's own value only. *)
Definition isErrHeader (e : error) : bool :=
  match e with
  | ErrHeader => true
  | _ => false
  end.

(** What a [panic] carries: the error handed to it, or the run-time
    error of a method call through a nil interface. *)
Inductive panicval :=
  | PanicError (e : error)
  | NilDereference.

(** The way a call ends. *)
Inductive res (A : Type) :=
  | Done (a : A)
  | Panic (p : panicval).
Arguments Done {A} a.
Arguments Panic {A} p.

(** ** The filesystem ([utils/fs]) *)

(** An open file, as far as [ioutil.ReadAll] and [Close] see it: the
    bytes a read to the end delivers, the error it ends with, and the
    error of closing. *)
Record File := {
  data : list byte;
  readErr : option error;
  closeErr : option error
}.

(** Modelled from the spec: [fs.FS] is not among the sources; it is "a
    filesystem capability providing: existence check, open-for-read,
    path join, directory listing".  The store is a tree of entries; an
    entry is a regular file (which may refuse to open), a directory, or
    one that every access fails on. *)
Inductive node :=
  | Regular (openErr : option error) (f : File)
  | Directory (entries : list (string * node))
  | Broken (e : error).

Abbreviation FS := node.

Module fs.

(** The pieces of [p] between slashes, [cur] being the piece read so
    far. *)
Fixpoint split (cur : string) (p : string) : list string :=
  match p with
  | EmptyString => [cur]
  | String c t =>
      if Ascii.eqb c "/" then cur :: split "" t
      else split (cur ++ String c "") t
  end.

(** The names a path goes through. *)
Definition components (p : string) : list string :=
  filter (λ c, c ≠ "") (split "" p).

(** The entry of a directory by its name. *)
Fixpoint assoc (name : string) (es : list (string * node)) : option node :=
  match es with
  | [] => None
  | (n, x) :: t => if String.eqb n name then Some x else assoc name t
  end.

(** The entry the names [cs] lead to from [n], or the error of the
    system call that looks it up. *)
Fixpoint find (n : node) (cs : list string) : node + error :=
  match cs with
  | [] => inl n
  | c :: t =>
      match n with
      | Directory es =>
          match assoc c es with
          | Some n' => find n' t
          | None => inr (SysError ENOENT)
          end
      | Regular _ _ => inr (SysError ENOTDIR)
      | Broken e => inr e
      end
  end.

(** Modelled from the spec: the "path join" [Join(elem...)], the
    non-empty elements separated by slashes. *)
Fixpoint Join (elems : list string) : string :=
  match elems with
  | [] => ""
  | e :: t =>
      if String.eqb e "" then Join t
      else match Join t with
           | EmptyString => e
           | r => e ++ "/" ++ r
           end
  end.

(** Modelled from the spec: the "existence check" [Stat(path)], of which
    the callers use the error only. *)
Definition Stat (fsys : FS) (p : string) : option error :=
  match find fsys (components p) with
  | inl (Broken e) => Some e
  | inl _ => None
  | inr e => Some e
  end.

(** Modelled from the spec: the "open-for-read" [Open(path)]: the file,
    or the error (and then no file). *)
Definition Open (fsys : FS) (p : string) : File + error :=
  match find fsys (components p) with
  | inl (Regular None f) => inl f
  | inl (Regular (Some e) _) => inr e
  | inl (Directory _) =>
      inl {| data := []; readErr := Some (SysError EISDIR); closeErr := None |}
  | inl (Broken e) => inr e
  | inr e => inr e
  end.

End fs.

(** ** Capabilities ([clients/common]) *)

(** Modelled from the spec: [common.Capabilities] is not among the
    sources; it is "a mapping from capability name (string) to an ordered
    list of string values", "supporting does it support name X and get
    ordered values for name X".  [Get] of an absent name is the nil
    pointer. *)
Module common.

(** Modelled from the spec: a capability, its name and its "ordered
    list of string values". *)
Record Capability := { Name : string; Values : list string }.

Abbreviation Capabilities := (gmap string Capability).

(** Modelled from the spec: the capability set that holds nothing yet. *)
Definition NewCapabilities : Capabilities := ∅.

(** Modelled from the spec: [Set(name, values...)] records [values] as
    the values of [name]. *)
Definition Set_ (c : Capabilities) (name : string) (values : list string)
  : Capabilities :=
  <[name := {| Name := name; Values := values |}]> c.

(** Modelled from the spec: "does it support name X". *)
Definition Supports (c : Capabilities) (name : string) : bool :=
  bool_decide (is_Some (c !! name)).

(** Modelled from the spec: "get ordered values for name X"; the nil
    pointer for a name that is not there. *)
Definition Get (c : Capabilities) (name : string) : option Capability :=
  c !! name.

End common.

(** ** State and control *)

(** [gitdir.GitDir]. *)
Record GitDir := {
  fs_ : FS;
  path : string;
  refs : gmap string Hash
}.

(** What [fmt.Println] was given. *)
Inductive line :=
  | Text (s : string)
  | RefsMap (m : gmap string Hash).

(** The handle behind the [*GitDir] pointer and the standard output. *)
Record World := {
  dir : GitDir;
  stdout : list line
}.

(** A call: from the state before it to the way it ends and the state
    after it. *)
Definition M (A : Type) : Type := World → res A * World.

#[export] Instance M_ret : MRet M := λ A (a : A) w, (Done a, w).

#[export] Instance M_bind : MBind M := λ A B (k : A → M B) (m : M A) w,
  match m w with
  | (Done a, w') => k a w'
  | (Panic p, w') => (Panic p, w')
  end.

(** [return a]. *)
Definition ret {A} (a : A) : M A := mret a.

(** [panic(v)]. *)
Definition panic {A} (p : panicval) : M A := λ w, (Panic p, w).

(** [fmt.Println]. *)
Definition Println (l : line) : M unit :=
  λ w, (Done tt, {| dir := dir w; stdout := stdout w ++ [l] |}).

(** The receiver [d]. *)
Definition this : M GitDir := λ w, (Done (dir w), w).

(** [d.refs = m]. *)
Definition setRefs (m : gmap string Hash) : M unit :=
  λ w, (Done tt,
        {| dir := {| fs_ := fs_ (dir w); path := path (dir w); refs := m |};
           stdout := stdout w |}).

(** ** Package [gitdir] *)

Module gitdir.

Definition suffix := ".git".
Definition packedRefsPath := "packed-refs".

(** Modelled from the spec: the constant [symRefPrefix] is declared in
    a file that is not among the sources; the scanner "strips the
    [ref: ] prefix if present". *)
Definition symRefPrefix := "ref: ".

(** [New(fs, path)]. *)
Definition New (fsys : FS) (p : string) : option GitDir * option error :=
  match fs.Stat fsys p with
  | Some err =>
      if IsNotExist err then (None, Some ErrNotFound) else (None, Some err)
  | None => (Some {| fs_ := fsys; path := p; refs := ∅ |}, None)
  end.

(** Modelled from the spec: reading one reference file.  Its "trimmed
    content is either a raw Hash (direct reference) or a [ref: <name>]
    string (symbolic reference, which must be transparently resolved to
    a Hash before inclusion in the output)"; an unreadable file is an
    error.  The spec does not say where a symbolic name is looked up:
    here among the references [m] collected so far, and a name that is
    not there is an error. *)
Definition readHashFile (openErr : option error) (f : File)
    (m : gmap string Hash) : Hash + error :=
  match openErr, readErr f, closeErr f with
  | Some e, _, _ => inr e
  | None, Some e, _ => inr e
  | None, None, Some e => inr e
  | None, None, None =>
      let content := Strings.TrimSpace (Strings.of_bytes (data f)) in
      if Strings.HasPrefix content symRefPrefix then
        match m !! Strings.TrimPrefix content symRefPrefix with
        | Some h => inl h
        | None => inr (OtherError "symbolic reference not found")
        end
      else inl (NewHash content)
  end.

(** Modelled from the spec: the walk of "the repository's
    loose-reference directory tree".  [rel] is the name of the entry
    [n] relative to the repository root, which is the name its
    reference gets.  "On any unreadable reference file, the whole
    operation fails." *)
Fixpoint walkTree (rel : string) (n : node) (m : gmap string Hash)
    : gmap string Hash * option error :=
  match n with
  | Regular openErr f =>
      match readHashFile openErr f m with
      | inl h => (<[rel := h]> m, None)
      | inr e => (m, Some e)
      end
  | Directory es =>
      (fix entries (es : list (string * node)) (m : gmap string Hash) :=
         match es with
         | [] => (m, None)
         | (name, child) :: rest =>
             match walkTree (fs.Join [rel; name]) child m with
             | (m', None) => entries rest m'
             | (m', Some e) => (m', Some e)
             end
         end) es m
  | Broken e => (m, Some e)
  end.

(** Modelled from the spec: [addRefsFromRefDir] is defined in a file
    that is not among the sources; it adds to [d.refs] the references
    found under [<root>/refs]. *)
Definition addRefsFromRefDir : M (option error) :=
  d ← this;
  match fs.find (fs_ d) (fs.components (fs.Join [path d; "refs"])) with
  | inl (Directory es) =>
      let '(m, err) := walkTree "refs" (Directory es) (refs d) in
      setRefs m;;
      ret err
  | inl (Regular _ _) => ret (Some (SysError ENOTDIR))
  | inl (Broken e) => ret (Some e)
  | inr e => ret (Some e)
  end.

(** [Refs()].  The nil map of the failing return reads as the empty one. *)
Definition Refs : M (gmap string Hash * option error) :=
  setRefs ∅;;
  err ← addRefsFromRefDir;
  match err with
  | Some e => ret (∅, Some e)
  | None => d ← this; ret (refs d, err)
  end.

(** [addSymRefCapability(cap)]; the capabilities behind the pointer
    [cap] are returned with the error.  The deferred function stores
    the error of [Close] in the result only when that is still nil. *)
Definition addSymRefCapability (cap : common.Capabilities)
    : M (common.Capabilities * option error) :=
  d ← this;
  match fs.Open (fs_ d) (fs.Join [path d; "HEAD"]) with
  | inr err => ret (cap, Some err)
  | inl f =>
      match readErr f with
      | Some err => ret (cap, Some err)
      | None =>
          let data := Strings.TrimSpace (Strings.of_bytes (data f)) in
          let c := "symref" in
          let ref := Strings.TrimPrefix data symRefPrefix in
          ret (common.Set_ cap c ["HEAD:" ++ ref], closeErr f)
      end
  end.

(** [Capabilities()]. *)
Definition Capabilities : M (common.Capabilities * option error) :=
  let c := common.NewCapabilities in
  addSymRefCapability c.

(** The value of [objFile] in [Objectfile].  The slices of [hash] are
    within its forty characters. *)
Definition objectPath (d : GitDir) (h : Hash) : string :=
  let hash := Hash_String h in
  fs.Join [path d; "objects"; Strings.slice 0 2 hash; Strings.slice 2 40 hash].

(** [Objectfile(h)]: the filesystem, the path and the error. *)
Definition Objectfile (h : Hash) : M (option FS * string * option error) :=
  let hash := Hash_String h in
  Println (Text ("hash: " ++ hash));;
  d ← this;
  let objFile := objectPath d h in
  Println (Text objFile);;
  match fs.Stat (fs_ d) objFile with
  | Some err =>
      if IsNotExist err then ret (None, "", Some ErrNotFound)
      else ret (None, "", Some err)
  | None => ret (Some (fs_ d), objFile, None)
  end.

End gitdir.

(** ** The decompressor ([compress/zlib]) *)

(** An open decompressor, as far as [io.Copy] and [Close] see it: the
    bytes a copy to the end delivers, the error the copy ends with and
    the error of closing afterwards. *)
Record zreader := {
  out : list byte;
  copyErr : option error;
  zcloseErr : option error
}.

(** [zlib.NewReader(r)]: the reader (nil or not) and the error.  The
    package belongs to Go's library and is a parameter of the store. *)
Class Zlib := { NewReader : File → option zreader * option error }.

(** ** Package [seekable2] *)

Module seekable2.

Definition headErrPrefix := "cannot get HEAD reference:".
Definition symrefCapapability := "symref".
Definition headRefPrefix := "HEAD:".

(** [New(fs, path)]: the [ObjectStorage] holds the [*GitDir] and
    nothing else. *)
Definition New (fsys : FS) (p : string) : option GitDir * option error :=
  match gitdir.New fsys p with
  | (_, Some err) => (None, Some err)
  | (d, None) => (d, None)
  end.

(** [Set(object)]. *)
Definition Set_ (o : Object) : M (Hash * option error) :=
  ret (ZeroHash, Some (Errorf "not implemented yet" [])).

Section Decompression.
Context `{Zlib}.

(** [inflate] from its [defer] statement on: the copy, then the
    deferred function, which stores the error of [Close] in the
    named result [err] when that is nil.  Through a nil reader both
    [io.Copy] and the deferred [Close] panic. *)
Definition copyAndClose (w : list byte) (zr : option zreader)
    : res (list byte * option error) :=
  match zr with
  | None => Panic NilDereference
  | Some z =>
      let err := copyErr z in
      let closeErr := zcloseErr z in
      Done ((w ++ out z)%list,
            match err with
            | None => closeErr
            | Some _ => err
            end)
  end.

(** [inflate(w, r)], with the bytes of the writer [w] before and
    after.  The early return precedes the [defer] statement, so
    nothing is closed there. *)
Definition inflate (w : list byte) (r : File) : res (list byte * option error) :=
  let '(zr, err) := NewReader r in
  match err with
  | Some e =>
      if negb (isErrHeader e)
      then Done (w, Some (Errorf "zlib reading error: %s" [ArgError e]))
      else copyAndClose w zr
  | None => copyAndClose w zr
  end.

(** [readZip(r)]. *)
Definition readZip (r : File) : res (list byte * option error) :=
  let buf := [] in
  inflate buf r.

(** [readObject(r)]; [len(cont)] is an [int], which [int64] holds. *)
Definition readObject (r : File) : res (option Object * option error) :=
  match readZip r with
  | Panic p => Panic p
  | Done (cont, Some err) => Done (None, Some err)
  | Done (cont, None) =>
      Done (Some (NewObject CommitObject (Z.of_nat (List.length cont)) cont), None)
  end.

(** [Get(h)].  The results are not named, so what the deferred
    function stores in [err] after [f.Close()] is lost; each [return]
    that follows a [panic] is never reached. *)
Definition Get (h : Hash) : M (option Object * option error) :=
  '(fsys, path, err) ← gitdir.Objectfile h;
  match err with
  | Some e => panic (PanicError e)
  | None =>
      match fsys with
      | None => panic NilDereference
      | Some fsys =>
          match fs.Open fsys path with
          | inr e => panic (PanicError e)
          | inl f =>
              match readObject f with
              | Panic p => panic p
              | Done (_, Some e) => panic (PanicError e)
              | Done (commit, None) => ret (commit, None)
              end
          end
      end
  end.

End Decompression.

(** [Iter(t)]: [objects] is the nil slice. *)
Definition Iter (t : ObjectType) : M (ObjectSliceIter * option error) :=
  let objects := [] in
  ret (NewObjectSliceIter objects, None).

(** The loop of [Head] over [symrefs.Values]: [headRef] starts empty
    and every value with the prefix replaces it. *)
Definition scanHeadRef (values : list string) : string :=
  fold_left
    (λ headRef ref,
       if Strings.HasPrefix ref headRefPrefix
       then Strings.TrimPrefix ref headRefPrefix
       else headRef)
    values "".

(** [Head()] from the second statement on, given what
    [s.dir.Capabilities()] returned. *)
Definition resolveHead (cap : common.Capabilities) (err : option error)
    : M (Hash * option error) :=
  match err with
  | Some e =>
      Println (Text "Error 0000000000000000000000000000000000000000000000000000000");;
      ret (ZeroHash, Some (Errorf "%s %s" [ArgString headErrPrefix; ArgError e]))
  | None =>
      let ok := common.Supports cap symrefCapapability in
      if negb ok then
        ret (ZeroHash,
             Some (Errorf "%s symref capability not supported"
                     [ArgString headErrPrefix]))
      else
        match common.Get cap symrefCapapability with
        | None => panic NilDereference
        | Some symrefs =>
            let headRef := scanHeadRef (common.Values symrefs) in
            Println (Text headRef);;
            if String.eqb headRef "" then
              ret (ZeroHash,
                   Some (Errorf "%s HEAD reference not found"
                           [ArgString headErrPrefix]))
            else
              '(refs, err) ← gitdir.Refs;
              Println (RefsMap refs);;
              match err with
              | Some e =>
                  ret (ZeroHash,
                       Some (Errorf "%s %s" [ArgString headErrPrefix; ArgError e]))
              | None =>
                  match refs !! headRef with
                  | None =>
                      ret (ZeroHash,
                           Some (Errorf "%s reference %q not found"
                                   [ArgString headErrPrefix; ArgString headRef]))
                  | Some head => ret (head, None)
                  end
              end
        end
  end.

(** [Head()]. *)
Definition Head : M (Hash * option error) :=
  '(cap, err) ← gitdir.Capabilities;
  resolveHead cap err.

End seekable2.

(** ** A decompressor for stored blocks *)

(** An instance of [Zlib] for the streams that consist of stored
    (uncompressed) deflate blocks: the two-byte header with its check,
    the blocks, and the big-endian Adler-32 of the content.  It is what
    the examples below decompress with. *)
Module stored.

(** The Adler-32 checksum. *)
Definition adler32 (l : list byte) : N :=
  let '(a, b) :=
    fold_left
      (λ '(a, b) x, let a' := ((a + Byte.to_N x) mod 65521)%N in
                    (a', ((b + a') mod 65521)%N))
      l (1%N, 0%N) in
  (b * 65536 + a)%N.

(** Four bytes as a big-endian number. *)
Definition be32 (a b c d : byte) : N :=
  (((Byte.to_N a * 256 + Byte.to_N b) * 256 + Byte.to_N c) * 256 + Byte.to_N d)%N.

(** The content of the blocks of [l], the error that stopped the
    reading and the bytes that follow the final block. *)
Fixpoint blocks (fuel : nat) (l : list byte) (acc : list byte)
    : list byte * option error * list byte :=
  match fuel, l with
  | S fuel', hd :: lo :: hi :: nlo :: nhi :: rest =>
      let h := Byte.to_N hd in
      let len := (Byte.to_N lo + 256 * Byte.to_N hi)%N in
      let nlen := (Byte.to_N nlo + 256 * Byte.to_N nhi)%N in
      if negb ((h / 2) mod 4 =? 0)%N then
        (acc, Some (OtherError "compressed block"), rest)
      else if negb (len + nlen =? 65535)%N then
        (acc, Some (OtherError "corrupt input"), rest)
      else if (N.of_nat (List.length rest) <? len)%N then
        ((acc ++ rest)%list, Some ErrUnexpectedEOF, [])
      else
        let acc' := (acc ++ take (N.to_nat len) rest)%list in
        let rest' := drop (N.to_nat len) rest in
        if (h mod 2 =? 1)%N then (acc', None, rest')
        else blocks fuel' rest' acc'
  | _, _ => (acc, Some ErrUnexpectedEOF, [])
  end.

(** The error of a read that finds the stream at its end. *)
Definition truncated (r : File) : error :=
  match readErr r with
  | Some e => e
  | None => ErrUnexpectedEOF
  end.

(** The reader over the blocks in [body], which follow the header. *)
Definition reader (r : File) (body : list byte) : zreader :=
  let '(content, err, rest) := blocks (List.length body) body [] in
  let err' :=
    match err, rest with
    | Some e, _ => Some e
    | None, a :: b :: c :: d :: _ =>
        if (be32 a b c d =? adler32 content)%N then None
        else Some ErrChecksum
    | None, _ => Some (truncated r)
    end in
  {| out := content; copyErr := err'; zcloseErr := err' |}.

(** [zlib.NewReader(r)]: the nil reader with every error.  No
    dictionary is at hand, so a stream that names one passes only with
    the checksum of the empty dictionary. *)
Definition open (r : File) : option zreader * option error :=
  match data r with
  | cmf :: flg :: body =>
      let c := Byte.to_N cmf in
      let f := Byte.to_N flg in
      if negb ((c mod 16 =? 8) && (c / 16 <=? 7) && ((c * 256 + f) mod 31 =? 0))%N
      then (None, Some ErrHeader)
      else if ((f / 32) mod 2 =? 1)%N then
        match body with
        | a :: b :: c :: d :: body' =>
            if (be32 a b c d =? adler32 [])%N then (Some (reader r body'), None)
            else (None, Some ErrDictionary)
        | _ => (None, Some (truncated r))
        end
      else (Some (reader r body), None)
  | _ => (None, Some (truncated r))
  end.

Definition zlib : Zlib := {| NewReader := open |}.

End stored.

(** ** A repository to run the store on *)

Module fixture.

(** The line feed. *)
Definition LF : string := String (Ascii.ascii_of_nat 10) "".

(** A readable file of the bytes [b], and one of the characters [s]. *)
Definition file (b : list byte) : node :=
  Regular None {| data := b; readErr := None; closeErr := None |}.

Definition text (s : string) : node := file (list_byte_of_string s).

Definition a40 := "aaaaaaaaaaaaaaaaaaaaaaaaaaaaaaaaaaaaaaaa".
Definition a38 := "aaaaaaaaaaaaaaaaaaaaaaaaaaaaaaaaaaaaaa".

(** The hash [aaaa...]. *)
Definition H : Hash := NewHash a40.

(** The stored-block zlib stream of [hello]. *)
Definition helloZ : list byte :=
  [x78; x01; x01; x05; x00; xfa; xff;
   x68; x65; x6c; x6c; x6f;
   x06; x2c; x02; x15].

Definition gitDirectory (head main : string) (object : list byte) : node :=
  Directory
    [ ("HEAD", text (head ++ LF));
      ("refs", Directory [ ("heads", Directory [ ("main", text (main ++ LF)) ]) ]);
      ("objects", Directory [ ("aa", Directory [ (a38, file object) ]) ]) ].

Definition root := "/repo/.git".

(** [/repo/.git] with the lines of [HEAD] and of [refs/heads/main] and
    the bytes of the object file [objects/aa/aaaa...]. *)
Definition repository (head main : string) (object : list byte) : FS :=
  Directory [ ("repo", Directory [ (".git", gitDirectory head main object) ]) ].

(** [/repo/.git] with [HEAD] on the branch [main], that branch and one
    loose object. *)
Definition disk : FS := repository "ref: refs/heads/main" a40 helloZ.

(** The same with [HEAD] on a branch that has no reference file. *)
Definition diskUnborn : FS := repository "ref: refs/heads/gone" a40 helloZ.

(** The same with an object file that is not a zlib stream: the five
    bytes of [hello] as they are. *)
Definition diskPlain : FS :=
  repository "ref: refs/heads/main" a40 (list_byte_of_string "hello").

(** The same with the branch [main] at the hash [h]. *)
Definition diskAt (h : Hash) : FS :=
  repository "ref: refs/heads/main" (Hash_String h) helloZ.

(** The state once [seekable2.New(fsys, root)] has returned. *)
Definition world (fsys : FS) : World :=
  {| dir := {| fs_ := fsys; path := root; refs := ∅ |}; stdout := [] |}.

(** The file [HEAD] of [disk], and what its references are. *)
Definition headFile (head : string) : File :=
  {| data := list_byte_of_string (head ++ LF); readErr := None; closeErr := None |}.

Definition branches : gmap string Hash := {[ "refs/heads/main" := H ]}.

(** The object file of [H], and what it decompresses to. *)
Definition objectFile : File :=
  {| data := helloZ; readErr := None; closeErr := None |}.

Definition hello : zreader :=
  {| out := list_byte_of_string "hello"; copyErr := None; zcloseErr := None |}.

(** The object file of [diskPlain]. *)
Definition plainFile : File :=
  {| data := list_byte_of_string "hello"; readErr := None; closeErr := None |}.

(** A [symref] capability with three values, two of them for [HEAD]. *)
Definition twoHeads : common.Capabilities :=
  common.Set_ common.NewCapabilities "symref"
    ["HEAD:refs/heads/old"; "refs/remotes/origin/HEAD:refs/remotes/origin/main";
     "HEAD:refs/heads/main"].

(** A repository at [/repo/.git] from its three entries. *)
Definition tree (head refs objects : node) : FS :=
  Directory
    [ ("repo",
       Directory
         [ (".git",
            Directory [ ("HEAD", head); ("refs", refs); ("objects", objects) ]) ]) ].

Definition headOnMain : node := text ("ref: refs/heads/main" ++ LF).

Definition refsOfMain : node :=
  Directory [ ("heads", Directory [ ("main", text (a40 ++ LF)) ]) ].

Definition objectsOf (n : node) : node :=
  Directory [ ("aa", Directory [ (a38, n) ]) ].

(** The object file is there and refuses to open. *)
Definition diskLocked : FS :=
  tree headOnMain refsOfMain (objectsOf (Regular (Some (SysError EACCES)) objectFile)).

(** Every access to the directory [objects] fails. *)
Definition diskFaulty : FS := tree headOnMain refsOfMain (Broken (SysError EIO)).

(** The stream of [hello] with a wrong checksum, and its object file. *)
Definition helloBad : list byte :=
  [x78; x01; x01; x05; x00; xfa; xff;
   x68; x65; x6c; x6c; x6f;
   x06; x2c; x02; x16].

Definition badFile : File :=
  {| data := helloBad; readErr := None; closeErr := None |}.

(** What [badFile] decompresses to: the bytes, and the checksum error. *)
Definition helloUnchecked : zreader :=
  {| out := list_byte_of_string "hello";
     copyErr := Some ErrChecksum;
     zcloseErr := Some ErrChecksum |}.

Definition diskCorrupt : FS := tree headOnMain refsOfMain (objectsOf (file helloBad)).

(** The file [HEAD] is missing. *)
Definition diskNoHead : FS :=
  Directory
    [ ("repo",
       Directory
         [ (".git",
            Directory [ ("refs", refsOfMain); ("objects", objectsOf (file helloZ)) ]) ]) ].

(** Closing the file [HEAD] fails. *)
Definition headClosing : File :=
  {| data := list_byte_of_string ("ref: refs/heads/main" ++ LF);
     readErr := None; closeErr := Some (SysError EIO) |}.

Definition diskHeadClose : FS :=
  tree (Regular None headClosing) refsOfMain (objectsOf (file helloZ)).

(** The file [HEAD] is empty. *)
Definition diskEmptyHead : FS :=
  tree (text "") refsOfMain (objectsOf (file helloZ)).

(** The no-break space U+00A0 and the line separator U+2028, in UTF-8. *)
Definition nbsp : string :=
  String (Ascii.ascii_of_nat 194) (String (Ascii.ascii_of_nat 160) "").

Definition lineSeparator : string :=
  String (Ascii.ascii_of_nat 226)
    (String (Ascii.ascii_of_nat 128) (String (Ascii.ascii_of_nat 168) "")).

(** The name in [HEAD] is followed by a no-break space. *)
Definition diskPadded : FS :=
  tree (text ("ref: refs/heads/main" ++ nbsp)) refsOfMain (objectsOf (file helloZ)).

(** A second reference file refuses to open. *)
Definition diskBadRef : FS :=
  tree headOnMain
    (Directory
       [ ("heads",
          Directory [ ("main", text (a40 ++ LF));
                      ("next", Regular (Some (SysError EACCES)) objectFile) ]) ])
    (objectsOf (file helloZ)).

End fixture.

(** * Properties *)

#[local] Open Scope list_scope.

(** ** Strings and hashes *)

Lemma hex_length (l : list byte) :
  String.length (Strings.hex l) = (2 * List.length l)%nat.
Proof.
  induction l as [|b t IH]; simpl; [reflexivity | rewrite IH; lia].
Qed.

Lemma Hash_String_length (h : Hash) : String.length (Hash_String h) = 40.
Proof.
  unfold Hash_String. rewrite hex_length, length_vec_to_list. reflexivity.
Qed.

Lemma substring_length (s : string) (n m : nat) :
  (n + m ≤ String.length s)%nat → String.length (String.substring n m s) = m.
Proof.
  revert n m. induction s as [|c t IH]; intros n m Hle; simpl in *.
  - destruct n, m; simpl; lia.
  - destruct n as [|n].
    + destruct m as [|m]; simpl; [reflexivity|].
      f_equal. apply (IH 0 m). lia.
    + apply IH. lia.
Qed.

Lemma append_cons (c : ascii) (a b : string) :
  (String c a ++ b)%string = String c (a ++ b)%string.
Proof. reflexivity. Qed.

Lemma substring_all (s : string) : String.substring 0 (String.length s) s = s.
Proof. induction s as [|c t IH]; simpl; [reflexivity | by rewrite IH]. Qed.

Lemma substring_cut (s : string) (n : nat) :
  (n ≤ String.length s)%nat →
  (String.substring 0 n s ++ String.substring n (String.length s - n) s)%string = s.
Proof.
  revert n. induction s as [|c t IH]; intros n Hle.
  - destruct n; [reflexivity | simpl in Hle; lia].
  - destruct n as [|n].
    + rewrite Nat.sub_0_r, substring_all. reflexivity.
    + simpl in *. rewrite append_cons. f_equal. apply IH. lia.
Qed.

Lemma length_nonempty (s : string) : (0 < String.length s)%nat → s ≠ "".
Proof. destruct s; simpl; [lia | discriminate]. Qed.

Lemma eqb_nonempty (s : string) : s ≠ "" → String.eqb s "" = false.
Proof. destruct s; [congruence | reflexivity]. Qed.

Lemma Join_nonempty (p a b c : string) :
  p ≠ "" → a ≠ "" → b ≠ "" → c ≠ "" →
  fs.Join [p; a; b; c] = (p ++ "/" ++ a ++ "/" ++ b ++ "/" ++ c)%string.
Proof.
  intros Hp Ha Hb Hc. simpl.
  rewrite !eqb_nonempty by assumption.
  destruct c as [|c0 c']; [congruence|].
  destruct b as [|b0 b']; [congruence|].
  destruct a as [|a0 a']; [congruence|].
  reflexivity.
Qed.

(** ** The store's stubs *)

(** C8: for every object and in every state, [Set] returns the zero
    hash with the fixed error "not implemented yet", and the state after
    the call (the handle with its [refs] field, the filesystem it holds
    and the standard output) is the state before it. *)
Theorem Set_not_implemented (o : Object) (w : World) :
  seekable2.Set_ o w = (Done (ZeroHash, Some (Errorf "not implemented yet" [])), w).
Proof. reflexivity. Qed.

(** C9: for every type filter and in every state, [Iter] returns nil as
    its error and an iterator over no object at all, and leaves the state
    as it was. *)
Theorem Iter_empty (t : ObjectType) (w : World) :
  seekable2.Iter t w = (Done (NewObjectSliceIter [], None), w)
  ∧ List.length (series (NewObjectSliceIter [])) = 0.
Proof. split; reflexivity. Qed.

(** ** Decompression *)

Section Inflate.
Context `{Zlib}.

Lemma copyAndClose_reader (w : list byte) (z : zreader) :
  seekable2.copyAndClose w (Some z)
  = Done ((w ++ out z),
          match copyErr z with
          | Some e => Some e
          | None => zcloseErr z
          end).
Proof. unfold seekable2.copyAndClose. destruct (copyErr z); reflexivity. Qed.

Lemma isErrHeader_false (e : error) : e ≠ ErrHeader → isErrHeader e = false.
Proof. destruct e; simpl; congruence. Qed.

(** How [inflate] treats the errors of a decompressor, whatever reader
    it returns.  When opening fails with the header error, that error is
    dropped and the copy goes ahead on the reader the open returned, as
    after a successful open; through a nil reader the copy panics.  Any
    other error of opening is returned at once, wrapped, with nothing
    written.  After the copy, the error of closing is the result only if
    the copy ended without error; an error of the copy is returned
    whatever closing says. *)
Lemma inflate_error_policy (w : list byte) (r : File)
    (zr : option zreader) (err : option error) :
  NewReader r = (zr, err) →
  (err = Some ErrHeader ∨ err = None →
     (∀ z, zr = Some z →
        seekable2.inflate w r
        = Done ((w ++ out z),
                match copyErr z with
                | Some e => Some e
                | None => zcloseErr z
                end)) ∧
     (zr = None → seekable2.inflate w r = Panic NilDereference)) ∧
  (∀ e, err = Some e → e ≠ ErrHeader →
     seekable2.inflate w r
     = Done (w, Some (Errorf "zlib reading error: %s" [ArgError e]))) ∧
  (∀ z e, (err = Some ErrHeader ∨ err = None) → zr = Some z →
     copyErr z = Some e →
     seekable2.inflate w r = Done ((w ++ out z), Some e)) ∧
  (∀ z, (err = Some ErrHeader ∨ err = None) → zr = Some z →
     copyErr z = None →
     seekable2.inflate w r = Done ((w ++ out z), zcloseErr z)).
Proof.
  intros Hopen.
  assert (Hgo : err = Some ErrHeader ∨ err = None →
                seekable2.inflate w r = seekable2.copyAndClose w zr).
  { unfold seekable2.inflate. rewrite Hopen.
    intros [-> | ->]; reflexivity. }
  repeat split.
  - intros z ->. rewrite Hgo by assumption. apply copyAndClose_reader.
  - intros ->. rewrite Hgo by assumption. reflexivity.
  - intros e -> Hne. unfold seekable2.inflate. rewrite Hopen.
    rewrite (isErrHeader_false e Hne). reflexivity.
  - intros z e Herr -> Hcopy. rewrite Hgo by assumption.
    rewrite copyAndClose_reader, Hcopy. reflexivity.
  - intros z Herr -> Hcopy. rewrite Hgo by assumption.
    rewrite copyAndClose_reader, Hcopy. reflexivity.
Qed.

(** C3, which the code does not meet: the second and third parts hold
    ([inflate_error_policy]), the first does not.  [zlib.NewReader]
    returns the nil reader with every error, the header error among
    them; [inflate] lets that error through and goes on to copy from the
    nil reader, so instead of copying the stream it panics and never
    returns. *)
Theorem inflate_header_error_panics (w : list byte) (r : File) :
  NewReader r = (None, Some ErrHeader) →
  seekable2.inflate w r = Panic NilDereference
  ∧ ∀ x, seekable2.inflate w r ≠ Done x.
Proof.
  intros Hopen. unfold seekable2.inflate. rewrite Hopen. simpl.
  split; [reflexivity | discriminate].
Qed.

End Inflate.

(** ** Locating a loose object *)

Lemma shard_length (h : Hash) :
  String.length (Strings.slice 0 2 (Hash_String h)) = 2.
Proof.
  unfold Strings.slice. apply substring_length.
  rewrite Hash_String_length. simpl. lia.
Qed.

Lemma name_length (h : Hash) :
  String.length (Strings.slice 2 40 (Hash_String h)) = 38.
Proof.
  unfold Strings.slice. change (40 - 2) with 38. apply substring_length.
  rewrite Hash_String_length. lia.
Qed.

Lemma shard_name (h : Hash) :
  (Strings.slice 0 2 (Hash_String h) ++ Strings.slice 2 40 (Hash_String h))%string
  = Hash_String h.
Proof.
  unfold Strings.slice. change (2 - 0) with 2.
  replace (40 - 2) with (String.length (Hash_String h) - 2)
    by (rewrite Hash_String_length; reflexivity).
  apply substring_cut. rewrite Hash_String_length. lia.
Qed.

Lemma objectPath_shape (d : GitDir) (h : Hash) :
  path d ≠ "" →
  gitdir.objectPath d h
  = (path d ++ "/objects/" ++ Strings.slice 0 2 (Hash_String h)
            ++ "/" ++ Strings.slice 2 40 (Hash_String h))%string.
Proof.
  intros Hp. unfold gitdir.objectPath. rewrite Join_nonempty; [reflexivity | | | |].
  - exact Hp.
  - discriminate.
  - apply length_nonempty. rewrite shard_length. lia.
  - apply length_nonempty. rewrite name_length. lia.
Qed.

Lemma Objectfile_run (h : Hash) (w : World) :
  gitdir.Objectfile h w
  = (Done match fs.Stat (fs_ (dir w)) (gitdir.objectPath (dir w) h) with
          | Some err =>
              if IsNotExist err then (None, "", Some ErrNotFound)
              else (None, "", Some err)
          | None => (Some (fs_ (dir w)), gitdir.objectPath (dir w) h, None)
          end,
     {| dir := dir w;
        stdout := stdout w ++ [Text ("hash: " ++ Hash_String h);
                               Text (gitdir.objectPath (dir w) h)] |}).
Proof.
  unfold gitdir.Objectfile, mbind, M_bind, Println, this. simpl.
  rewrite <- app_assoc. simpl.
  destruct (fs.Stat _ _) as [err|]; [destruct (IsNotExist err)|]; reflexivity.
Qed.

(** C4: for every hash [h] (its hexadecimal form [H] has forty
    characters) [Objectfile] joins the root, [objects], the two
    characters [H[0:2]] and the thirty-eight characters [H[2:40]], which
    for a non-empty root is the string [<root>/objects/H[0:2]/H[2:40]];
    it returns the filesystem and that path with a nil error exactly when
    [Stat] of the path succeeds, [ErrNotFound] when [Stat] fails with an
    error that says the path does not exist, and the error of [Stat]
    itself otherwise. *)
Theorem Objectfile_locates (h : Hash) (w : World) :
  let d := dir w in
  let H := Hash_String h in
  let p := gitdir.objectPath d h in
  String.length H = 40
  ∧ (Strings.slice 0 2 H ++ Strings.slice 2 40 H)%string = H
  ∧ String.length (Strings.slice 0 2 H) = 2
  ∧ (path d ≠ "" →
     p = (path d ++ "/objects/" ++ Strings.slice 0 2 H
                 ++ "/" ++ Strings.slice 2 40 H)%string)
  ∧ (fs.Stat (fs_ d) p = None →
     (gitdir.Objectfile h w).1 = Done (Some (fs_ d), p, None))
  ∧ (∀ err, fs.Stat (fs_ d) p = Some err → IsNotExist err = true →
     (gitdir.Objectfile h w).1 = Done (None, "", Some ErrNotFound))
  ∧ (∀ err, fs.Stat (fs_ d) p = Some err → IsNotExist err = false →
     (gitdir.Objectfile h w).1 = Done (None, "", Some err))
  ∧ (∀ r, (gitdir.Objectfile h w).1 = Done (r, None) →
     fs.Stat (fs_ d) p = None ∧ r = (Some (fs_ d), p)).
Proof.
  intros d H p. subst d H p.
  split; [apply Hash_String_length|].
  split; [apply shard_name|].
  split; [apply shard_length|].
  split; [apply objectPath_shape|].
  rewrite Objectfile_run. simpl.
  split; [intros ->; reflexivity|].
  split; [intros err -> ->; reflexivity|].
  split; [intros err -> ->; reflexivity|].
  intros r. destruct (fs.Stat _ _) as [err|].
  - destruct (IsNotExist err); intros [=].
  - intros [= <-]. split; reflexivity.
Qed.

(** ** Reading a loose object *)

Section Get.
Context `{Zlib}.

(** The state [Get] leaves: the two lines of [Objectfile] are printed. *)
Lemma Get_run (h : Hash) (w : World) :
  seekable2.Get h w
  = (match fs.Stat (fs_ (dir w)) (gitdir.objectPath (dir w) h) with
     | Some err =>
         Panic (PanicError (if IsNotExist err then ErrNotFound else err))
     | None =>
         match fs.Open (fs_ (dir w)) (gitdir.objectPath (dir w) h) with
         | inr e => Panic (PanicError e)
         | inl f =>
             match seekable2.readObject f with
             | Panic p => Panic p
             | Done (_, Some e) => Panic (PanicError e)
             | Done (commit, None) => Done (commit, None)
             end
         end
     end,
     {| dir := dir w;
        stdout := stdout w ++ [Text ("hash: " ++ Hash_String h);
                               Text (gitdir.objectPath (dir w) h)] |}).
Proof.
  unfold seekable2.Get, mbind, M_bind. rewrite Objectfile_run.
  destruct (fs.Stat _ _) as [err|].
  - destruct (IsNotExist err); reflexivity.
  - cbn. destruct (fs.Open _ _) as [f|e]; [|reflexivity].
    destruct (seekable2.readObject f) as [[commit [e|]]|p]; reflexivity.
Qed.

Lemma readObject_run (f : File) :
  seekable2.readObject f
  = match seekable2.inflate [] f with
    | Panic p => Panic p
    | Done (cont, Some err) => Done (None, Some err)
    | Done (cont, None) =>
        Done (Some (NewObject CommitObject (Z.of_nat (List.length cont)) cont),
              None)
    end.
Proof. reflexivity. Qed.

(** C2, which the code does not meet: for every hash whose object
    file [Stat] reports as not existing, [Get] does not return at all:
    it panics, and the value of the panic is [ErrNotFound].  (The
    [return nil, err] written after [panic(err)] is never reached.) *)
Theorem Get_absent_panics (h : Hash) (w : World) (err : error) :
  fs.Stat (fs_ (dir w)) (gitdir.objectPath (dir w) h) = Some err →
  IsNotExist err = true →
  (seekable2.Get h w).1 = Panic (PanicError ErrNotFound)
  ∧ ∀ r, (seekable2.Get h w).1 ≠ Done r.
Proof.
  intros Hstat Hno. rewrite Get_run, Hstat, Hno. simpl.
  split; [reflexivity | discriminate].
Qed.

(** C6: for every hash whose object file is there ([Stat] and [Open]
    succeed) and decompresses without error (a reader is opened, and
    neither the copy nor closing fails), [Get] returns an object whose
    content is the decompressed bytes and whose declared size is the
    number of those bytes. *)
Theorem Get_size_is_content_length (h : Hash) (w : World) (f : File)
    (z : zreader) (err : option error) :
  fs.Stat (fs_ (dir w)) (gitdir.objectPath (dir w) h) = None →
  fs.Open (fs_ (dir w)) (gitdir.objectPath (dir w) h) = inl f →
  NewReader f = (Some z, err) →
  err = None ∨ err = Some ErrHeader →
  copyErr z = None →
  zcloseErr z = None →
  ∃ o, (seekable2.Get h w).1 = Done (Some o, None)
       ∧ Content o = out z
       ∧ Size o = Z.of_nat (List.length (Content o)).
Proof.
  intros Hstat Hopen Hnew Herr Hcopy Hclose.
  exists (NewObject CommitObject (Z.of_nat (List.length (out z))) (out z)).
  rewrite Get_run, Hstat, Hopen, readObject_run.
  unfold seekable2.inflate. rewrite Hnew.
  destruct Herr as [-> | ->]; simpl;
    rewrite Hcopy, Hclose; repeat split.
Qed.

(** C7: whatever the content, an object that [Get] returns carries
    the type tag [commit]. *)
Theorem Get_type_is_commit (h : Hash) (w : World) (o : Object)
    (err : option error) :
  (seekable2.Get h w).1 = Done (Some o, err) →
  Type_ o = CommitObject.
Proof.
  rewrite Get_run. simpl.
  destruct (fs.Stat _ _) as [e|]; [discriminate|].
  destruct (fs.Open _ _) as [f|e]; [|discriminate].
  rewrite readObject_run.
  destruct (seekable2.inflate [] f) as [[cont [e|]]|p]; try discriminate.
  intros [= <- <-]. reflexivity.
Qed.

End Get.

(** ** Resolving HEAD *)

(** What [Capabilities] finds in the file [HEAD]: it leaves the state
    alone. *)
Lemma Capabilities_run (w : World) :
  gitdir.Capabilities w
  = (Done match fs.Open (fs_ (dir w)) (fs.Join [path (dir w); "HEAD"]) with
          | inr err => (common.NewCapabilities, Some err)
          | inl f =>
              match readErr f with
              | Some err => (common.NewCapabilities, Some err)
              | None =>
                  (common.Set_ common.NewCapabilities "symref"
                     [("HEAD:" ++ Strings.TrimPrefix
                                    (Strings.TrimSpace (Strings.of_bytes (data f)))
                                    gitdir.symRefPrefix)%string],
                   closeErr f)
              end
          end, w).
Proof.
  unfold gitdir.Capabilities, gitdir.addSymRefCapability, mbind, M_bind, this.
  destruct (fs.Open _ _) as [f|e]; [|reflexivity].
  destruct (readErr f); reflexivity.
Qed.

(** [Refs] always returns, prints nothing, and neither what it returns
    nor the handle it leaves depends on the standard output or on the
    [refs] field it starts from. *)
Lemma Refs_run (w : World) :
  ∃ r d',
    fs_ d' = fs_ (dir w) ∧ path d' = path (dir w) ∧
    ∀ o rf,
      gitdir.Refs {| dir := {| fs_ := fs_ (dir w); path := path (dir w); refs := rf |};
                     stdout := o |}
      = (Done r, {| dir := d'; stdout := o |}).
Proof.
  unfold gitdir.Refs, gitdir.addRefsFromRefDir, mbind, M_bind, setRefs, this.
  cbn -[gitdir.walkTree].
  pose (d0 := λ m, {| fs_ := fs_ (dir w); path := path (dir w); refs := m |}).
  destruct (fs.find _ _) as [[oe f | es | e] | e].
  - exists (∅, Some (SysError ENOTDIR)), (d0 ∅). repeat split.
  - destruct (gitdir.walkTree "refs" (Directory es) ∅) as [m [e|]] eqn:Hwalk.
    + exists (∅, Some e), (d0 m). repeat split.
    + exists (m, None), (d0 m). repeat split.
  - exists (∅, Some e), (d0 ∅). repeat split.
  - exists (∅, Some e), (d0 ∅). repeat split.
Qed.

Lemma World_eta (w : World) :
  w = {| dir := {| fs_ := fs_ (dir w); path := path (dir w); refs := refs (dir w) |};
         stdout := stdout w |}.
Proof. destruct w as [[f p r] o]. reflexivity. Qed.

(** The step of the loop of [Head]. *)
Lemma scanHeadRef_snoc (l : list string) (x : string) :
  seekable2.scanHeadRef (l ++ [x])
  = if Strings.HasPrefix x seekable2.headRefPrefix
    then Strings.TrimPrefix x seekable2.headRefPrefix
    else seekable2.scanHeadRef l.
Proof. unfold seekable2.scanHeadRef. rewrite fold_left_app. reflexivity. Qed.

Lemma scanHeadRef_skip (l post : list string) :
  Forall (λ x, Strings.HasPrefix x seekable2.headRefPrefix = false) post →
  seekable2.scanHeadRef (l ++ post) = seekable2.scanHeadRef l.
Proof.
  induction post as [|x post IH] using rev_ind; intros Hpost.
  - by rewrite app_nil_r.
  - apply Forall_app in Hpost as [Hpost Hx].
    apply Forall_inv in Hx. simpl in Hx.
    rewrite app_assoc, scanHeadRef_snoc, Hx. auto.
Qed.

(** The loop ends with the last value that has the prefix, stripped. *)
Lemma scanHeadRef_last (pre post : list string) (v : string) :
  Strings.HasPrefix v seekable2.headRefPrefix = true →
  Forall (λ x, Strings.HasPrefix x seekable2.headRefPrefix = false) post →
  seekable2.scanHeadRef (pre ++ v :: post)
  = Strings.TrimPrefix v seekable2.headRefPrefix.
Proof.
  intros Hv Hpost.
  change (pre ++ v :: post) with (pre ++ [v] ++ post).
  rewrite app_assoc, scanHeadRef_skip by assumption.
  rewrite scanHeadRef_snoc, Hv. reflexivity.
Qed.

Lemma scanHeadRef_none (l : list string) :
  Forall (λ x, Strings.HasPrefix x seekable2.headRefPrefix = false) l →
  seekable2.scanHeadRef l = "".
Proof. intros Hl. apply (scanHeadRef_skip [] l Hl). Qed.

(** Either no value has the prefix, or there is a last one that has. *)
Lemma last_prefixed (l : list string) :
  Forall (λ x, Strings.HasPrefix x seekable2.headRefPrefix = false) l
  ∨ ∃ pre v post,
      l = pre ++ v :: post
      ∧ Strings.HasPrefix v seekable2.headRefPrefix = true
      ∧ Forall (λ x, Strings.HasPrefix x seekable2.headRefPrefix = false) post.
Proof.
  induction l as [|x l IH] using rev_ind.
  - left. constructor.
  - destruct (Strings.HasPrefix x seekable2.headRefPrefix) eqn:Hx.
    + right. exists l, x, []. repeat split; [assumption | constructor].
    + destruct IH as [IH | (pre & v & post & -> & Hv & Hpost)].
      * left. apply Forall_app. split; [assumption|]. repeat constructor; assumption.
      * right. exists pre, v, (post ++ [x]).
        split; [by rewrite <- app_assoc|].
        split; [assumption|].
        apply Forall_app. split; [assumption|]. repeat constructor; assumption.
Qed.

(** [Head] once the capabilities are there and hold [symref]. *)
Lemma resolveHead_run (cap : common.Capabilities) (symrefs : common.Capability)
    (w : World) (r : gmap string Hash * option error) :
  cap !! "symref" = Some symrefs →
  (gitdir.Refs w).1 = Done r →
  (seekable2.resolveHead cap None w).1
  = Done
      (let headRef := seekable2.scanHeadRef (common.Values symrefs) in
       if String.eqb headRef "" then
         (ZeroHash,
          Some (Errorf "%s HEAD reference not found"
                  [ArgString seekable2.headErrPrefix]))
       else
         match r.2 with
         | Some e =>
             (ZeroHash,
              Some (Errorf "%s %s" [ArgString seekable2.headErrPrefix; ArgError e]))
         | None =>
             match r.1 !! headRef with
             | None =>
                 (ZeroHash,
                  Some (Errorf "%s reference %q not found"
                          [ArgString seekable2.headErrPrefix; ArgString headRef]))
             | Some head => (head, None)
             end
         end).
Proof.
  intros Hcap Hrefs.
  destruct (Refs_run w) as (r0 & d' & _ & _ & Hrun).
  assert (r0 = r) as ->.
  { rewrite (World_eta w), Hrun in Hrefs. simpl in Hrefs. congruence. }
  unfold seekable2.resolveHead, common.Supports, common.Get,
    seekable2.symrefCapapability.
  rewrite Hcap, bool_decide_true by eauto.
  unfold mbind, M_bind, Println. cbn -[gitdir.Refs seekable2.scanHeadRef].
  destruct (String.eqb _ "") eqn:Hempty; [reflexivity|].
  rewrite (World_eta w). cbn -[gitdir.Refs seekable2.scanHeadRef].
  rewrite Hrun. destruct r as [m [e|]]; simpl; [reflexivity|].
  destruct (m !! _); reflexivity.
Qed.

Lemma scanHeadRef_single (ref : string) :
  seekable2.scanHeadRef [("HEAD:" ++ ref)%string] = ref.
Proof.
  unfold seekable2.scanHeadRef, Strings.HasPrefix, Strings.TrimPrefix,
    Strings.HasPrefix, seekable2.headRefPrefix.
  cbn. destruct ref; reflexivity.
Qed.

(** The target [Head] reads from a readable [HEAD] file. *)
Lemma Head_run (w : World) (f : File) (r : gmap string Hash * option error) :
  fs.Open (fs_ (dir w)) (fs.Join [path (dir w); "HEAD"]) = inl f →
  readErr f = None →
  closeErr f = None →
  (gitdir.Refs w).1 = Done r →
  (seekable2.Head w).1
  = Done
      (let headRef :=
         Strings.TrimPrefix (Strings.TrimSpace (Strings.of_bytes (data f)))
           gitdir.symRefPrefix in
       if String.eqb headRef "" then
         (ZeroHash,
          Some (Errorf "%s HEAD reference not found"
                  [ArgString seekable2.headErrPrefix]))
       else
         match r.2 with
         | Some e =>
             (ZeroHash,
              Some (Errorf "%s %s" [ArgString seekable2.headErrPrefix; ArgError e]))
         | None =>
             match r.1 !! headRef with
             | None =>
                 (ZeroHash,
                  Some (Errorf "%s reference %q not found"
                          [ArgString seekable2.headErrPrefix; ArgString headRef]))
             | Some head => (head, None)
             end
         end).
Proof.
  intros Hopen Hread Hclose Hrefs.
  unfold seekable2.Head, mbind, M_bind.
  rewrite Capabilities_run, Hopen, Hread, Hclose. cbv beta iota.
  erewrite resolveHead_run; [| apply lookup_insert_eq | exact Hrefs].
  cbn -[seekable2.scanHeadRef]. rewrite scanHeadRef_single. reflexivity.
Qed.


(** C5: in every repository whose [HEAD] file names a target (the
    trimmed content without its [ref: ] prefix, not empty) that the map
    returned by [Refs] does not bind, [Head] returns the zero hash and the
    error [cannot get HEAD reference: reference %q not found], formatted
    with that target. *)
Theorem Head_reference_not_found (w : World) (f : File)
    (m : gmap string Hash) (target : string) :
  fs.Open (fs_ (dir w)) (fs.Join [path (dir w); "HEAD"]) = inl f →
  readErr f = None →
  closeErr f = None →
  Strings.TrimPrefix (Strings.TrimSpace (Strings.of_bytes (data f)))
    gitdir.symRefPrefix = target →
  target ≠ "" →
  (gitdir.Refs w).1 = Done (m, None) →
  m !! target = None →
  (seekable2.Head w).1
  = Done (ZeroHash,
          Some (Errorf "%s reference %q not found"
                  [ArgString "cannot get HEAD reference:"; ArgString target])).
Proof.
  intros Hopen Hread Hclose Htarget Hne Hrefs Habsent.
  rewrite (Head_run w f (m, None)) by assumption.
  rewrite Htarget. cbn. rewrite (eqb_nonempty target Hne), Habsent.
  reflexivity.
Qed.

(** C10: when the [symref] capability holds several values, the target
    of [Head] is the last one that starts with [HEAD:], stripped of that
    prefix, and that is the name looked up in the references; [Head]
    fails with [HEAD reference not found] exactly when no value starts
    with [HEAD:] or the last one that does is [HEAD:] alone. *)
Theorem Head_uses_last_symref (cap : common.Capabilities)
    (symrefs : common.Capability) (w : World) (m : gmap string Hash)
    (err : option error) :
  cap !! "symref" = Some symrefs →
  (gitdir.Refs w).1 = Done (m, err) →
  let values := common.Values symrefs in
  let noPrefix := λ x, Strings.HasPrefix x "HEAD:" = false in
  let notFound :=
    Done (ZeroHash,
          Some (Errorf "%s HEAD reference not found"
                  [ArgString "cannot get HEAD reference:"])) in
  (∀ pre v post,
     values = pre ++ v :: post →
     Strings.HasPrefix v "HEAD:" = true →
     Forall noPrefix post →
     seekable2.scanHeadRef values = Strings.TrimPrefix v "HEAD:"
     ∧ (Strings.TrimPrefix v "HEAD:" ≠ "" → err = None →
        (seekable2.resolveHead cap None w).1
        = Done match m !! Strings.TrimPrefix v "HEAD:" with
               | Some head => (head, None)
               | None =>
                   (ZeroHash,
                    Some (Errorf "%s reference %q not found"
                            [ArgString "cannot get HEAD reference:";
                             ArgString (Strings.TrimPrefix v "HEAD:")]))
               end))
  ∧ ((seekable2.resolveHead cap None w).1 = notFound
     ↔ Forall noPrefix values
       ∨ ∃ pre v post,
           values = pre ++ v :: post
           ∧ Strings.HasPrefix v "HEAD:" = true
           ∧ Forall noPrefix post
           ∧ Strings.TrimPrefix v "HEAD:" = "").
Proof.
  intros Hcap Hrefs values noPrefix notFound.
  pose proof (resolveHead_run cap symrefs w (m, err) Hcap Hrefs) as Hrun.
  fold values in Hrun.
  split.
  - intros pre v post Hvalues Hv Hpost.
    assert (Hscan : seekable2.scanHeadRef values = Strings.TrimPrefix v "HEAD:").
    { rewrite Hvalues. exact (scanHeadRef_last pre post v Hv Hpost). }
    split; [exact Hscan|].
    intros Hne ->. rewrite Hrun. cbv zeta. cbn [fst snd].
    rewrite Hscan, (eqb_nonempty _ Hne).
    destruct (m !! _); reflexivity.
  - rewrite Hrun. cbv zeta. cbn [fst snd]. split.
    + intros Hfail.
      assert (Hscan : seekable2.scanHeadRef values = "").
      { destruct (String.eqb (seekable2.scanHeadRef values) "") eqn:Heq.
        - by apply String.eqb_eq.
        - destruct err; [discriminate Hfail|].
          destruct (m !! _); discriminate Hfail. }
      destruct (last_prefixed values) as [Hnone | (pre & v & post & Hv1 & Hv2 & Hv3)].
      * left. exact Hnone.
      * right. exists pre, v, post. repeat split; try assumption.
        change (Strings.TrimPrefix v seekable2.headRefPrefix = "").
        rewrite <- (scanHeadRef_last pre post v Hv2 Hv3), <- Hv1. exact Hscan.
    + intros [Hnone | (pre & v & post & Hv1 & Hv2 & Hv3 & Hv4)].
      * rewrite (scanHeadRef_none values Hnone). reflexivity.
      * rewrite Hv1, (scanHeadRef_last pre post v Hv2 Hv3).
        unfold seekable2.headRefPrefix. rewrite Hv4. reflexivity.
Qed.

(** ** Reading a hash back from its file *)

Lemma hexdigit_facts (b : byte) :
  let hi := (Byte.to_N b / 16)%N in
  let lo := (Byte.to_N b mod 16)%N in
  Strings.isSpace (Strings.hexdigit hi) = false
  ∧ Strings.isSpace (Strings.hexdigit lo) = false
  ∧ Strings.unhexdigit (Strings.hexdigit hi) = Some hi
  ∧ Strings.unhexdigit (Strings.hexdigit lo) = Some lo
  ∧ Byte.of_N (16 * hi + lo) = Some b
  ∧ Strings.HasPrefix (String (Strings.hexdigit hi) "") "r" = false.
Proof. destruct b; vm_compute; repeat split. Qed.

Lemma unhex_hex (l : list byte) : Strings.unhex (Strings.hex l) = l.
Proof.
  induction l as [|b t IH]; [reflexivity|].
  destruct (hexdigit_facts b) as (_ & _ & Hhi & Hlo & Hb & _).
  cbn [Strings.hex Strings.unhex]. rewrite Hhi, Hlo, Hb, IH. reflexivity.
Qed.

Lemma fill_vec_to_list {n} (v : vec byte n) : fill n (vec_to_list v) = v.
Proof. induction v as [|b n v IH]; simpl; [reflexivity | by rewrite IH]. Qed.

Lemma NewHash_String (h : Hash) : NewHash (Hash_String h) = h.
Proof. unfold NewHash, Hash_String. rewrite unhex_hex. apply fill_vec_to_list. Qed.

(** A byte below 128 is no part of a white-space character of two or
    three bytes. *)
Lemma isSpace2_ascii (c1 c2 : ascii) :
  (Ascii.N_of_ascii c1 < 128 ∨ Ascii.N_of_ascii c2 < 128)%N →
  Strings.isSpace2 c1 c2 = false.
Proof.
  unfold Strings.isSpace2. cbv zeta. intros Hlt.
  destruct (N.eqb_spec (Ascii.N_of_ascii c1) 194);
    destruct (N.eqb_spec (Ascii.N_of_ascii c2) 133);
    destruct (N.eqb_spec (Ascii.N_of_ascii c2) 160);
    try reflexivity; lia.
Qed.

Lemma isSpace3_ascii (c1 c2 c3 : ascii) :
  (Ascii.N_of_ascii c1 < 128 ∨ Ascii.N_of_ascii c3 < 128)%N →
  Strings.isSpace3 c1 c2 c3 = false.
Proof.
  unfold Strings.isSpace3. cbv zeta. intros Hlt.
  destruct (N.eqb_spec (Ascii.N_of_ascii c1) 225);
    destruct (N.eqb_spec (Ascii.N_of_ascii c1) 226);
    destruct (N.eqb_spec (Ascii.N_of_ascii c1) 227);
    destruct (N.eqb_spec (Ascii.N_of_ascii c3) 128);
    destruct (N.eqb_spec (Ascii.N_of_ascii c3) 159);
    destruct (N.eqb_spec (Ascii.N_of_ascii c3) 168);
    destruct (N.eqb_spec (Ascii.N_of_ascii c3) 169);
    destruct (N.eqb_spec (Ascii.N_of_ascii c3) 175);
    destruct (N.leb_spec 128 (Ascii.N_of_ascii c3));
    rewrite ?andb_false_r, ?andb_false_l, ?orb_false_r, ?orb_false_l;
    try reflexivity; lia.
Qed.

Lemma hexdigit_ascii (b : byte) :
  (Ascii.N_of_ascii (Strings.hexdigit (Byte.to_N b / 16)) < 128)%N
  ∧ (Ascii.N_of_ascii (Strings.hexdigit (Byte.to_N b mod 16)) < 128)%N.
Proof. destruct b; vm_compute; split; reflexivity. Qed.

Lemma trimLeft_ascii (c : ascii) (t : string) :
  (Ascii.N_of_ascii c < 128)%N →
  Strings.isSpace c = false →
  Strings.trimLeft (String c t) = String c t.
Proof.
  intros Hlt Hc. cbn [Strings.trimLeft]. rewrite Hc.
  destruct t as [|c2 [|c3 t]]; rewrite ?isSpace2_ascii, ?isSpace3_ascii by auto;
    reflexivity.
Qed.

Lemma trimEnd_ascii (c : ascii) (r : list ascii) :
  (Ascii.N_of_ascii c < 128)%N →
  Strings.isSpace c = false →
  Strings.trimEnd (c :: r) = c :: r.
Proof.
  intros Hlt Hc. cbn [Strings.trimEnd]. rewrite Hc.
  destruct r as [|c2 [|c3 r]]; rewrite ?isSpace2_ascii, ?isSpace3_ascii by auto;
    reflexivity.
Qed.

Lemma list_ascii_of_string_app (a b : string) :
  list_ascii_of_string (a ++ b)%string
  = list_ascii_of_string a ++ list_ascii_of_string b.
Proof.
  induction a as [|c a IH]; [reflexivity|].
  rewrite append_cons. simpl. by rewrite IH.
Qed.

Lemma hex_app (l1 l2 : list byte) :
  Strings.hex (l1 ++ l2) = (Strings.hex l1 ++ Strings.hex l2)%string.
Proof.
  induction l1 as [|b l1 IH]; [reflexivity|].
  cbn [Strings.hex app]. rewrite IH, !append_cons. reflexivity.
Qed.

Lemma trimRight_hex (l : list byte) :
  Strings.trimRight (Strings.hex l ++ fixture.LF)%string = Strings.hex l.
Proof.
  unfold Strings.trimRight.
  rewrite list_ascii_of_string_app, rev_app_distr.
  change (rev (list_ascii_of_string fixture.LF))
    with [Ascii.ascii_of_nat 10].
  change (Strings.trimEnd ([Ascii.ascii_of_nat 10] ++ ?r))
    with (Strings.trimEnd r).
  replace (Strings.trimEnd (rev (list_ascii_of_string (Strings.hex l))))
    with (rev (list_ascii_of_string (Strings.hex l))).
  - rewrite rev_involutive. apply string_of_list_ascii_of_string.
  - destruct l as [|b l] using rev_ind; [reflexivity|].
    destruct (hexdigit_facts b) as (_ & Hlo & _).
    destruct (hexdigit_ascii b) as (_ & Hlt).
    rewrite hex_app, list_ascii_of_string_app, rev_app_distr.
    cbn [Strings.hex list_ascii_of_string rev app].
    symmetry. apply trimEnd_ascii; assumption.
Qed.

Lemma TrimSpace_hex (l : list byte) :
  Strings.TrimSpace (Strings.hex l ++ fixture.LF)%string = Strings.hex l.
Proof.
  unfold Strings.TrimSpace. destruct l as [|b t]; [reflexivity|].
  destruct (hexdigit_facts b) as (Hhi & _).
  destruct (hexdigit_ascii b) as (Hlt & _).
  replace (Strings.trimLeft (Strings.hex (b :: t) ++ fixture.LF)%string)
    with (Strings.hex (b :: t) ++ fixture.LF)%string.
  - apply trimRight_hex.
  - cbn [Strings.hex]. rewrite !append_cons.
    symmetry. apply trimLeft_ascii; assumption.
Qed.

Lemma hex_not_symbolic (b : byte) (t : list byte) :
  Strings.HasPrefix (Strings.hex (b :: t)) gitdir.symRefPrefix = false.
Proof.
  destruct (hexdigit_facts b) as (_ & _ & _ & _ & _ & Hr).
  unfold Strings.HasPrefix, gitdir.symRefPrefix in *.
  cbn [Strings.hex]. cbn [String.prefix] in *.
  destruct (ascii_dec _ _); [discriminate Hr | reflexivity].
Qed.

Lemma Hash_String_not_symbolic (h : Hash) :
  Strings.HasPrefix (Hash_String h) gitdir.symRefPrefix = false.
Proof.
  unfold Hash_String. pose proof (length_vec_to_list h) as Hlen.
  destruct (vec_to_list h) as [|b t]; [discriminate Hlen|].
  apply hex_not_symbolic.
Qed.

(** A reference file that holds the forty characters of [h] and a line
    feed reads back as [h]. *)
Lemma readHashFile_hash (h : Hash) (m : gmap string Hash) :
  gitdir.readHashFile None
    {| data := list_byte_of_string (Hash_String h ++ fixture.LF);
       readErr := None; closeErr := None |} m
  = inl h.
Proof.
  unfold gitdir.readHashFile. cbn [readErr closeErr data].
  unfold Strings.of_bytes. rewrite string_of_list_byte_of_string.
  replace (Strings.TrimSpace (Hash_String h ++ fixture.LF)%string)
    with (Hash_String h) by (symmetry; apply TrimSpace_hex).
  rewrite Hash_String_not_symbolic, NewHash_String. reflexivity.
Qed.

(** The equations of the walk. *)
Lemma walkTree_file (rel : string) (openErr : option error) (f : File)
    (m : gmap string Hash) :
  gitdir.walkTree rel (Regular openErr f) m
  = match gitdir.readHashFile openErr f m with
    | inl h => (<[rel := h]> m, None)
    | inr e => (m, Some e)
    end.
Proof. reflexivity. Qed.

Lemma walkTree_nil (rel : string) (m : gmap string Hash) :
  gitdir.walkTree rel (Directory []) m = (m, None).
Proof. reflexivity. Qed.

Lemma walkTree_cons (rel name : string) (child : node)
    (rest : list (string * node)) (m : gmap string Hash) :
  gitdir.walkTree rel (Directory ((name, child) :: rest)) m
  = match gitdir.walkTree (fs.Join [rel; name]) child m with
    | (m', None) => gitdir.walkTree rel (Directory rest) m'
    | (m', Some e) => (m', Some e)
    end.
Proof. reflexivity. Qed.

(** [Refs] on a repository that has a [refs] directory. *)
Lemma Refs_of_directory (w : World) (es : list (string * node)) :
  fs.find (fs_ (dir w)) (fs.components (fs.Join [path (dir w); "refs"]))
  = inl (Directory es) →
  (gitdir.Refs w).1
  = Done match gitdir.walkTree "refs" (Directory es) ∅ with
         | (m, None) => (m, None)
         | (_, Some e) => (∅, Some e)
         end.
Proof.
  intros Hfind.
  unfold gitdir.Refs, gitdir.addRefsFromRefDir, mbind, M_bind, setRefs, this.
  cbn -[gitdir.walkTree fs.find fs.components fs.Join].
  rewrite Hfind.
  destruct (gitdir.walkTree "refs" (Directory es) ∅) as [m [e|]]; reflexivity.
Qed.

(** Whatever hash the file [refs/heads/main] of the example repository
    holds, [Refs] binds the name to it and [Head] returns it. *)
Lemma Refs_at_any_hash (h : Hash) :
  (gitdir.Refs (fixture.world (fixture.diskAt h))).1
  = Done ({[ "refs/heads/main" := h ]}, None).
Proof.
  rewrite (Refs_of_directory _
             [("heads", Directory [("main", fixture.text (Hash_String h ++ fixture.LF))])])
    by reflexivity.
  rewrite walkTree_cons, walkTree_cons. unfold fixture.text, fixture.file.
  rewrite walkTree_file, readHashFile_hash, !walkTree_nil.
  reflexivity.
Qed.

Lemma Head_at_any_hash (h : Hash) :
  (seekable2.Head (fixture.world (fixture.diskAt h))).1 = Done (h, None).
Proof.
  rewrite (Head_run _ (fixture.headFile "ref: refs/heads/main")
             ({[ "refs/heads/main" := h ]}, None));
    try reflexivity.
  apply Refs_at_any_hash.
Qed.

(** ** The store on the example repository *)

Example New_example :
  seekable2.New fixture.disk fixture.root
  = (Some (dir (fixture.world fixture.disk)), None).
Proof. reflexivity. Qed.

Example New_missing :
  seekable2.New fixture.disk "/nowhere/.git" = (None, Some ErrNotFound).
Proof. reflexivity. Qed.

Example Refs_example :
  (gitdir.Refs (fixture.world fixture.disk)).1 = Done (fixture.branches, None).
Proof. vm_compute. reflexivity. Qed.


Lemma Get_absent_panics_witness :
  (@seekable2.Get stored.zlib ZeroHash (fixture.world fixture.disk)).1
  = Panic (PanicError ErrNotFound).
Proof.
  apply (@Get_absent_panics stored.zlib ZeroHash (fixture.world fixture.disk)
           (SysError ENOENT)); vm_compute; reflexivity.
Defined.

Example inflate_hello :
  @seekable2.inflate stored.zlib [] fixture.objectFile
  = Done (list_byte_of_string "hello", None).
Proof. reflexivity. Qed.

Lemma inflate_header_error_panics_witness :
  @seekable2.inflate stored.zlib [] fixture.plainFile = Panic NilDereference.
Proof.
  apply (@inflate_header_error_panics stored.zlib [] fixture.plainFile).
  vm_compute. reflexivity.
Defined.

(** The round trip of the example repository: [HEAD] resolves to the
    hash [aaaa...], and the object of that hash reads as [hello]. *)
Example round_trip :
  (seekable2.Head (fixture.world fixture.disk)).1 = Done (fixture.H, None)
  ∧ (@seekable2.Get stored.zlib fixture.H (fixture.world fixture.disk)).1
    = Done (Some (NewObject CommitObject 5 (list_byte_of_string "hello")), None).
Proof. split; vm_compute; reflexivity. Qed.

(** With an object file that is not a zlib stream, [Get] ends in the
    panic of [inflate]. *)
Example Get_header_error_panics :
  (@seekable2.Get stored.zlib fixture.H (fixture.world fixture.diskPlain)).1
  = Panic NilDereference.
Proof. vm_compute. reflexivity. Qed.

Lemma Objectfile_locates_witness :
  (gitdir.Objectfile fixture.H (fixture.world fixture.disk)).1
  = Done (Some fixture.disk,
          "/repo/.git/objects/aa/aaaaaaaaaaaaaaaaaaaaaaaaaaaaaaaaaaaaaa", None).
Proof.
  destruct (Objectfile_locates fixture.H (fixture.world fixture.disk))
    as (_ & _ & _ & _ & Hfound & _).
  apply Hfound. vm_compute. reflexivity.
Defined.

Lemma Head_reference_not_found_witness :
  (seekable2.Head (fixture.world fixture.diskUnborn)).1
  = Done (ZeroHash,
          Some (Errorf "%s reference %q not found"
                  [ArgString "cannot get HEAD reference:";
                   ArgString "refs/heads/gone"])).
Proof.
  apply (Head_reference_not_found (fixture.world fixture.diskUnborn)
           (fixture.headFile "ref: refs/heads/gone") fixture.branches
           "refs/heads/gone");
    try (vm_compute; reflexivity).
  discriminate.
Defined.

Lemma Get_size_is_content_length_witness :
  ∃ o, (@seekable2.Get stored.zlib fixture.H (fixture.world fixture.disk)).1
       = Done (Some o, None)
       ∧ Content o = list_byte_of_string "hello"
       ∧ Size o = 5%Z.
Proof.
  destruct (@Get_size_is_content_length stored.zlib fixture.H
              (fixture.world fixture.disk) fixture.objectFile fixture.hello None)
    as (o & Hget & Hcontent & Hsize);
    try (vm_compute; reflexivity).
  - left. reflexivity.
  - exists o. rewrite Hsize, Hcontent. repeat split. exact Hget.
Defined.

Lemma Get_type_is_commit_witness :
  Type_ (NewObject CommitObject 5 (list_byte_of_string "hello")) = CommitObject.
Proof.
  apply (@Get_type_is_commit stored.zlib fixture.H (fixture.world fixture.disk)
           _ None).
  vm_compute. reflexivity.
Defined.

Lemma Head_uses_last_symref_witness :
  seekable2.scanHeadRef
    ["HEAD:refs/heads/old"; "refs/remotes/origin/HEAD:refs/remotes/origin/main";
     "HEAD:refs/heads/main"] = "refs/heads/main"
  ∧ (seekable2.resolveHead fixture.twoHeads None (fixture.world fixture.disk)).1
    = Done (fixture.H, None).
Proof.
  destruct (Head_uses_last_symref fixture.twoHeads
              {| common.Name := "symref";
                 common.Values :=
                   ["HEAD:refs/heads/old";
                    "refs/remotes/origin/HEAD:refs/remotes/origin/main";
                    "HEAD:refs/heads/main"] |}
              (fixture.world fixture.disk) fixture.branches None)
    as [Hlast _]; try (vm_compute; reflexivity).
  destruct (Hlast ["HEAD:refs/heads/old";
                   "refs/remotes/origin/HEAD:refs/remotes/origin/main"]
              "HEAD:refs/heads/main" [])
    as [Hscan Hhead]; try reflexivity.
  - constructor.
  - split; [exact Hscan|]. apply Hhead; [discriminate | reflexivity].
Defined.

(** * Further properties of the store *)

(** ** What [Get] does when something fails *)

Section GetFailures.
Context `{Zlib}.

(** [Get] never returns an error: whenever it returns, the error is nil
    and the object is there.  Every failure ends in a panic. *)
Theorem Get_returns_only_success (h : Hash) (w : World)
    (o : option Object) (e : option error) :
  (seekable2.Get h w).1 = Done (o, e) →
  e = None ∧ is_Some o.
Proof.
  rewrite Get_run. simpl.
  destruct (fs.Stat _ _) as [err|]; [discriminate|].
  destruct (fs.Open _ _) as [f|err]; [|discriminate].
  rewrite readObject_run.
  destruct (seekable2.inflate [] f) as [[cont [err|]]|p]; try discriminate.
  intros [= <- <-]. split; [reflexivity | eauto].
Qed.

(** A failure of the filesystem reaches the caller of [Get] as the value
    of a panic, unchanged: the error of [Stat] when it is not about a
    missing path, and the error of [Open] when [Stat] succeeded. *)
Theorem Get_filesystem_failure_panics (h : Hash) (w : World) (e : error) :
  (fs.Stat (fs_ (dir w)) (gitdir.objectPath (dir w) h) = Some e →
   IsNotExist e = false →
   (seekable2.Get h w).1 = Panic (PanicError e))
  ∧ (fs.Stat (fs_ (dir w)) (gitdir.objectPath (dir w) h) = None →
     fs.Open (fs_ (dir w)) (gitdir.objectPath (dir w) h) = inr e →
     (seekable2.Get h w).1 = Panic (PanicError e)).
Proof.
  rewrite Get_run. simpl. split.
  - intros -> ->. reflexivity.
  - intros -> ->. reflexivity.
Qed.

(** When the object file opens and [inflate] returns an error, [Get]
    panics with that error, whatever bytes were decompressed before it;
    when [inflate] panics, so does [Get]. *)
Theorem Get_decode_failure_panics (h : Hash) (w : World) (f : File) :
  fs.Stat (fs_ (dir w)) (gitdir.objectPath (dir w) h) = None →
  fs.Open (fs_ (dir w)) (gitdir.objectPath (dir w) h) = inl f →
  (∀ cont e, seekable2.inflate [] f = Done (cont, Some e) →
     (seekable2.Get h w).1 = Panic (PanicError e))
  ∧ (∀ p, seekable2.inflate [] f = Panic p →
       (seekable2.Get h w).1 = Panic p).
Proof.
  intros Hstat Hopen. rewrite Get_run, Hstat, Hopen, readObject_run. simpl.
  split.
  - intros cont e ->. reflexivity.
  - intros p ->. reflexivity.
Qed.

(** [Get] returns exactly when the object file is found, opens and
    decompresses without error, and then with the decompressed bytes. *)
Theorem Get_returns_iff (h : Hash) (w : World) (o : Object) :
  (seekable2.Get h w).1 = Done (Some o, None)
  ↔ fs.Stat (fs_ (dir w)) (gitdir.objectPath (dir w) h) = None
    ∧ ∃ f, fs.Open (fs_ (dir w)) (gitdir.objectPath (dir w) h) = inl f
           ∧ seekable2.inflate [] f = Done (Content o, None)
           ∧ o = NewObject CommitObject (Z.of_nat (List.length (Content o)))
                   (Content o).
Proof.
  rewrite Get_run. simpl. split.
  - destruct (fs.Stat _ _) as [err|]; [discriminate|].
    destruct (fs.Open _ _) as [f|err]; [|discriminate].
    rewrite readObject_run.
    destruct (seekable2.inflate [] f) as [[cont [err|]]|p] eqn:Hinf;
      try discriminate.
    intros [= <-]. split; [reflexivity|]. exists f. simpl. auto.
  - intros (-> & f & -> & Hinf & Ho). rewrite readObject_run, Hinf.
    rewrite Ho at 3. reflexivity.
Qed.

(** Whether it returns or panics, [Get] leaves the handle as it was
    (the [refs] field too) and has written two lines, the hash and the
    path of its file, to the standard output. *)
Theorem Get_leaves_handle (h : Hash) (w : World) :
  dir (seekable2.Get h w).2 = dir w
  ∧ stdout (seekable2.Get h w).2
    = stdout w ++ [Text ("hash: " ++ Hash_String h);
                   Text (gitdir.objectPath (dir w) h)].
Proof. rewrite Get_run. split; reflexivity. Qed.

(** What [Get] returns depends on the filesystem and the root of the
    handle only, not on its [refs] field or on what was printed. *)
Lemma Get_frame (h : Hash) (w1 w2 : World) :
  fs_ (dir w1) = fs_ (dir w2) →
  path (dir w1) = path (dir w2) →
  (seekable2.Get h w1).1 = (seekable2.Get h w2).1.
Proof.
  intros Hfs Hpath. rewrite !Get_run. simpl.
  unfold gitdir.objectPath. rewrite Hfs, Hpath. reflexivity.
Qed.

(** ** The decompression stage *)

(** [inflate] appends: what it returns for a writer that holds [w] is
    what it returns for an empty writer, after [w]; nothing that was in
    the writer is lost, and an early error leaves it as it was. *)
Theorem inflate_appends (w : list byte) (r : File) :
  seekable2.inflate w r
  = match seekable2.inflate [] r with
    | Done (added, e) => Done (w ++ added, e)
    | Panic p => Panic p
    end.
Proof.
  unfold seekable2.inflate. destruct (NewReader r) as [zr [e|]].
  - destruct (isErrHeader e); simpl.
    + destruct zr; simpl; [|reflexivity]. reflexivity.
    + by rewrite app_nil_r.
  - destruct zr; reflexivity.
Qed.

(** [readObject] returns an object or an error, never both and never
    neither; the object is there exactly when [inflate] returned no
    error, and bytes decompressed before an error are dropped. *)
Theorem readObject_object_or_error (f : File) (o : option Object)
    (e : option error) :
  seekable2.readObject f = Done (o, e) →
  (e = None
   ∧ ∃ cont, seekable2.inflate [] f = Done (cont, None)
             ∧ o = Some (NewObject CommitObject (Z.of_nat (List.length cont)) cont))
  ∨ (o = None
     ∧ ∃ cont err, e = Some err ∧ seekable2.inflate [] f = Done (cont, Some err)).
Proof.
  rewrite readObject_run.
  destruct (seekable2.inflate [] f) as [[cont [err|]]|p]; try discriminate.
  - intros [= <- <-]. right. eauto.
  - intros [= <- <-]. left. eauto.
Qed.

End GetFailures.

(** ** Paths of loose objects *)

Lemma append_cancel_l (p a b : string) : (p ++ a)%string = (p ++ b)%string → a = b.
Proof.
  induction p as [|c p IH]; [auto|].
  rewrite !append_cons. intros [= Heq]. auto.
Qed.

Lemma append_same_length (a1 b1 a2 b2 : string) :
  String.length a1 = String.length a2 →
  (a1 ++ b1)%string = (a2 ++ b2)%string →
  a1 = a2 ∧ b1 = b2.
Proof.
  revert a2. induction a1 as [|c a1 IH]; intros [|c2 a2] Hlen; try discriminate.
  - auto.
  - rewrite !append_cons. intros [= -> Heq].
    destruct (IH a2) as [-> ->]; auto.
Qed.

Lemma Hash_String_inj (h1 h2 : Hash) : Hash_String h1 = Hash_String h2 → h1 = h2.
Proof.
  intros Heq. rewrite <- (NewHash_String h1), <- (NewHash_String h2), Heq.
  reflexivity.
Qed.

Lemma Join_objects (p a b : string) :
  a ≠ "" → b ≠ "" →
  fs.Join [p; "objects"; a; b]
  = ((if String.eqb p "" then "" else p ++ "/") ++ "objects/" ++ a ++ "/" ++ b)%string.
Proof.
  intros Ha Hb. simpl. rewrite (eqb_nonempty a Ha), (eqb_nonempty b Hb).
  destruct b as [|b0 b']; [congruence|].
  destruct a as [|a0 a']; [congruence|].
  destruct (String.eqb p ""); [reflexivity|].
  induction p as [|c p IH]; [reflexivity|].
  rewrite !append_cons. f_equal. exact IH.
Qed.

(** Two hashes never share an object file: under one root,
    [Objectfile] builds different paths for different hashes. *)
Theorem objectPath_injective (d : GitDir) (h1 h2 : Hash) :
  gitdir.objectPath d h1 = gitdir.objectPath d h2 → h1 = h2.
Proof.
  unfold gitdir.objectPath. cbv zeta.
  rewrite !Join_objects
    by (apply length_nonempty; rewrite ?shard_length, ?name_length; lia).
  intros Heq. apply append_cancel_l, append_cancel_l in Heq.
  apply append_same_length in Heq as [Hshard Hrest];
    [| by rewrite !shard_length].
  apply (append_cancel_l "/") in Hrest.
  apply Hash_String_inj.
  rewrite <- (shard_name h1), <- (shard_name h2), Hshard, Hrest. reflexivity.
Qed.

(** ** The capabilities of a repository *)

(** [Capabilities] always returns and leaves the state as it was.
    When [HEAD] cannot be opened, or opens and cannot be read, the error
    is that of the filesystem (a failure of reading is not replaced by one
    of closing) and the set holds nothing.  When [HEAD] is read, the set
    holds [symref] and nothing else, with the one value [HEAD:] followed
    by the trimmed content without its [ref: ] prefix, and the error is
    that of closing the file: a failing [Close] is reported with the set
    already filled. *)
Theorem Capabilities_outcome (w : World) :
  (gitdir.Capabilities w).2 = w
  ∧ (∀ e, fs.Open (fs_ (dir w)) (fs.Join [path (dir w); "HEAD"]) = inr e →
     (gitdir.Capabilities w).1 = Done (∅, Some e))
  ∧ (∀ f e, fs.Open (fs_ (dir w)) (fs.Join [path (dir w); "HEAD"]) = inl f →
     readErr f = Some e →
     (gitdir.Capabilities w).1 = Done (∅, Some e))
  ∧ (∀ f, fs.Open (fs_ (dir w)) (fs.Join [path (dir w); "HEAD"]) = inl f →
     readErr f = None →
     (gitdir.Capabilities w).1
     = Done ({[ "symref" :=
                  {| common.Name := "symref";
                     common.Values :=
                       [("HEAD:" ++ Strings.TrimPrefix
                                      (Strings.TrimSpace (Strings.of_bytes (data f)))
                                      "ref: ")%string] |} ]},
             closeErr f)).
Proof.
  rewrite Capabilities_run. split; [reflexivity|]. simpl.
  split; [intros e ->; reflexivity|].
  split; [intros f e -> ->; reflexivity|].
  intros f -> ->. reflexivity.
Qed.

(** ** The reference map of the handle *)

(** What [Refs] returns and the field it leaves, for every standard
    output and every earlier content of the field. *)
Lemma Refs_full (w : World) :
  ∃ m e m',
    (∀ o rf,
       gitdir.Refs {| dir := {| fs_ := fs_ (dir w); path := path (dir w); refs := rf |};
                      stdout := o |}
       = (Done (m, e),
          {| dir := {| fs_ := fs_ (dir w); path := path (dir w); refs := m' |};
             stdout := o |}))
    ∧ (e = None → m = m')
    ∧ (e ≠ None → m = ∅).
Proof.
  unfold gitdir.Refs, gitdir.addRefsFromRefDir, mbind, M_bind, setRefs, this.
  cbn -[gitdir.walkTree].
  destruct (fs.find _ _) as [[oe f | es | e] | e].
  - exists ∅, (Some (SysError ENOTDIR)), ∅. repeat split; congruence.
  - destruct (gitdir.walkTree "refs" (Directory es) ∅) as [m [e|]] eqn:Hwalk.
    + exists ∅, (Some e), m. repeat split; congruence.
    + exists m, None, m. repeat split; congruence.
  - exists ∅, (Some e), ∅. repeat split; congruence.
  - exists ∅, (Some e), ∅. repeat split; congruence.
Qed.

Lemma Refs_eq (w : World) :
  ∃ m e m',
    gitdir.Refs w
    = (Done (m, e),
       {| dir := {| fs_ := fs_ (dir w); path := path (dir w); refs := m' |};
          stdout := stdout w |})
    ∧ (e = None → m = m')
    ∧ (e ≠ None → m = ∅).
Proof.
  destruct (Refs_full w) as (m & e & m' & Hrun & Hok & Herr).
  exists m, e, m'. split; [|auto].
  rewrite (World_eta w) at 1. apply Hrun.
Qed.

Lemma Refs_same (w1 w2 : World) :
  fs_ (dir w1) = fs_ (dir w2) →
  path (dir w1) = path (dir w2) →
  (gitdir.Refs w1).1 = (gitdir.Refs w2).1.
Proof.
  intros Hfs Hpath.
  destruct (Refs_full w1) as (m & e & m' & Hrun & _).
  rewrite (World_eta w1), Hrun.
  rewrite (World_eta w2), <- Hfs, <- Hpath, Hrun. reflexivity.
Qed.

(** [Refs] builds the map anew: neither what it returns nor the handle
    it leaves depends on what the [refs] field held before, or on the
    standard output. *)
Theorem Refs_overwrites (w1 w2 : World) :
  fs_ (dir w1) = fs_ (dir w2) →
  path (dir w1) = path (dir w2) →
  (gitdir.Refs w1).1 = (gitdir.Refs w2).1
  ∧ dir (gitdir.Refs w1).2 = dir (gitdir.Refs w2).2.
Proof.
  intros Hfs Hpath.
  destruct (Refs_full w1) as (m & e & m' & Hrun & _).
  rewrite (World_eta w1), Hrun.
  rewrite (World_eta w2), <- Hfs, <- Hpath, Hrun. split; reflexivity.
Qed.

(** ** All the outcomes of [Head] *)

Lemma Refs_output (w : World) (o : list line) :
  gitdir.Refs {| dir := dir w; stdout := o |}
  = ((gitdir.Refs w).1, {| dir := dir (gitdir.Refs w).2; stdout := o |}).
Proof.
  destruct (Refs_full w) as (m & e & m' & Hrun & _).
  destruct w as [[f p r] o0]. cbn [dir fs_ path] in *.
  rewrite !Hrun. reflexivity.
Qed.

(** The message of [Head] around the error [e]. *)
Lemma Head_full (w : World) :
  seekable2.Head w
  = let wrap e :=
      (ZeroHash,
       Some (Errorf "%s %s" [ArgString seekable2.headErrPrefix; ArgError e])) in
    let failed e :=
      (Done (wrap e),
       {| dir := dir w;
          stdout :=
            stdout w
            ++ [Text "Error 0000000000000000000000000000000000000000000000000000000"] |}) in
    match fs.Open (fs_ (dir w)) (fs.Join [path (dir w); "HEAD"]) with
    | inr e => failed e
    | inl f =>
        match readErr f, closeErr f with
        | Some e, _ => failed e
        | None, Some e => failed e
        | None, None =>
            let headRef :=
              Strings.TrimPrefix (Strings.TrimSpace (Strings.of_bytes (data f)))
                gitdir.symRefPrefix in
            if String.eqb headRef "" then
              (Done (ZeroHash,
                     Some (Errorf "%s HEAD reference not found"
                             [ArgString seekable2.headErrPrefix])),
               {| dir := dir w; stdout := stdout w ++ [Text headRef] |})
            else
              match (gitdir.Refs w).1 with
              | Panic p =>
                  (Panic p,
                   {| dir := dir (gitdir.Refs w).2;
                      stdout := stdout w ++ [Text headRef] |})
              | Done (m, err) =>
                  (Done match err with
                        | Some e => wrap e
                        | None =>
                            match m !! headRef with
                            | None =>
                                (ZeroHash,
                                 Some (Errorf "%s reference %q not found"
                                         [ArgString seekable2.headErrPrefix;
                                          ArgString headRef]))
                            | Some head => (head, None)
                            end
                        end,
                   {| dir := dir (gitdir.Refs w).2;
                      stdout := stdout w ++ [Text headRef; RefsMap m] |})
              end
        end
    end.
Proof.
  unfold seekable2.Head, mbind, M_bind. rewrite Capabilities_run.
  destruct (fs.Open _ _) as [f|e]; [|reflexivity].
  destruct (readErr f) as [e|]; [reflexivity|].
  destruct (closeErr f) as [e|]; [reflexivity|].
  cbv beta iota zeta.
  unfold seekable2.resolveHead, common.Supports, common.Get, common.Set_,
    seekable2.symrefCapapability.
  rewrite lookup_insert_eq, bool_decide_true by eauto.
  cbn [negb common.Values]. rewrite scanHeadRef_single.
  unfold mbind, M_bind, Println.
  destruct (String.eqb _ "") eqn:Hempty; [reflexivity|].
  cbn [dir stdout]. rewrite Refs_output.
  destruct (gitdir.Refs w).1 as [[m [e|]]|p]; cbn [dir stdout].
  - rewrite <- app_assoc. reflexivity.
  - rewrite <- app_assoc. destruct (m !! _); reflexivity.
  - reflexivity.
Qed.

(** [Head] never panics, whatever the repository.  It returns the zero
    hash with every error, it never reports that the [symref] capability
    is not supported (the capabilities it is given always hold it), and it
    keeps the filesystem and the root of the handle. *)
Theorem Head_always_returns (w : World) :
  ∃ hash err,
    (seekable2.Head w).1 = Done (hash, err)
    ∧ (err ≠ None → hash = ZeroHash)
    ∧ err ≠ Some (Errorf "%s symref capability not supported"
                    [ArgString "cannot get HEAD reference:"])
    ∧ fs_ (dir (seekable2.Head w).2) = fs_ (dir w)
    ∧ path (dir (seekable2.Head w).2) = path (dir w).
Proof.
  rewrite Head_full. cbv zeta.
  destruct (Refs_eq w) as (m & e & m' & Hrefs & _ & _).
  assert (Hdone : ∀ (r : Hash * option error) (w' : World),
            (r.2 ≠ None → r.1 = ZeroHash) →
            r.2 ≠ Some (Errorf "%s symref capability not supported"
                          [ArgString "cannot get HEAD reference:"]) →
            fs_ (dir w') = fs_ (dir w) →
            path (dir w') = path (dir w) →
            ∃ hash err,
              (Done r, w').1 = Done (hash, err)
              ∧ (err ≠ None → hash = ZeroHash)
              ∧ err ≠ Some (Errorf "%s symref capability not supported"
                              [ArgString "cannot get HEAD reference:"])
              ∧ fs_ (dir (Done r, w').2) = fs_ (dir w)
              ∧ path (dir (Done r, w').2) = path (dir w)).
  { intros [hash err] w' H1 H2 H3 H4. exists hash, err. auto. }
  destruct (fs.Open _ _) as [f|e0]; [|by apply Hdone].
  destruct (readErr f) as [e1|]; [by apply Hdone|].
  destruct (closeErr f) as [e2|]; [by apply Hdone|].
  destruct (String.eqb _ ""); [by apply Hdone|].
  rewrite Hrefs. cbn [fst snd].
  destruct e as [e|]; [by apply Hdone|].
  destruct (m !! _) as [head|]; apply Hdone; try done.
Qed.

(** When [Capabilities] returns an error, [Head] returns the zero hash
    and that error behind [cannot get HEAD reference:], prints one line
    and leaves the handle alone: the references are not scanned.  The
    error of a missing [HEAD] is the one of the filesystem, not
    [ErrNotFound]. *)
Theorem Head_wraps_HEAD_failure (w : World) (cap : common.Capabilities)
    (e : error) :
  (gitdir.Capabilities w).1 = Done (cap, Some e) →
  seekable2.Head w
  = (Done (ZeroHash,
           Some (Errorf "%s %s"
                   [ArgString "cannot get HEAD reference:"; ArgError e])),
     {| dir := dir w;
        stdout :=
          stdout w
          ++ [Text "Error 0000000000000000000000000000000000000000000000000000000"] |}).
Proof.
  intros Hcap. unfold seekable2.Head, mbind, M_bind.
  pose proof (Capabilities_run w) as Hrun.
  destruct (gitdir.Capabilities w) as [r w'].
  cbn [fst] in Hcap. subst r. injection Hrun as _ ->. reflexivity.
Qed.

(** When the file [HEAD] names a target and the scan of the references
    fails, [Head] returns the zero hash and the error of the scan behind
    [cannot get HEAD reference:], whether or not the target was found
    before the failure. *)
Theorem Head_wraps_Refs_failure (w : World) (f : File)
    (m : gmap string Hash) (e : error) :
  fs.Open (fs_ (dir w)) (fs.Join [path (dir w); "HEAD"]) = inl f →
  readErr f = None →
  closeErr f = None →
  Strings.TrimPrefix (Strings.TrimSpace (Strings.of_bytes (data f))) "ref: " ≠ "" →
  (gitdir.Refs w).1 = Done (m, Some e) →
  (seekable2.Head w).1
  = Done (ZeroHash,
          Some (Errorf "%s %s"
                  [ArgString "cannot get HEAD reference:"; ArgError e])).
Proof.
  intros Hopen Hread Hclose Htarget Hrefs.
  rewrite Head_full, Hopen, Hread, Hclose. cbv zeta.
  unfold gitdir.symRefPrefix. rewrite (eqb_nonempty _ Htarget), Hrefs.
  reflexivity.
Qed.

(** When the content of [HEAD] is empty once trimmed and stripped of
    [ref: ], [Head] fails with [HEAD reference not found] without scanning
    the references: the handle is as before. *)
Theorem Head_empty_HEAD (w : World) (f : File) :
  fs.Open (fs_ (dir w)) (fs.Join [path (dir w); "HEAD"]) = inl f →
  readErr f = None →
  closeErr f = None →
  Strings.TrimPrefix (Strings.TrimSpace (Strings.of_bytes (data f))) "ref: " = "" →
  seekable2.Head w
  = (Done (ZeroHash,
           Some (Errorf "%s HEAD reference not found"
                   [ArgString "cannot get HEAD reference:"])),
     {| dir := dir w; stdout := stdout w ++ [Text ""] |}).
Proof.
  intros Hopen Hread Hclose Htarget.
  rewrite Head_full, Hopen, Hread, Hclose. cbv zeta.
  unfold gitdir.symRefPrefix. rewrite Htarget. reflexivity.
Qed.

(** [Head] returns a hash without error only if [HEAD] was read and
    closed without error and the scan succeeded with a map that binds the
    target to that hash; that map is then what the [refs] field of the
    handle holds. *)
Theorem Head_success_only_if (w : World) (h : Hash) :
  (seekable2.Head w).1 = Done (h, None) →
  ∃ f m,
    fs.Open (fs_ (dir w)) (fs.Join [path (dir w); "HEAD"]) = inl f
    ∧ readErr f = None
    ∧ closeErr f = None
    ∧ (gitdir.Refs w).1 = Done (m, None)
    ∧ m !! Strings.TrimPrefix (Strings.TrimSpace (Strings.of_bytes (data f))) "ref: "
      = Some h
    ∧ refs (dir (seekable2.Head w).2) = m.
Proof.
  rewrite Head_full. cbv zeta.
  destruct (Refs_eq w) as (m & e & m' & Hrefs & Hfield & _).
  destruct (fs.Open _ _) as [f|e0] eqn:Hopen; [|discriminate].
  destruct (readErr f) as [e1|] eqn:Hread; [discriminate|].
  destruct (closeErr f) as [e2|] eqn:Hclose; [discriminate|].
  destruct (String.eqb _ ""); [discriminate|].
  rewrite Hrefs. cbn [fst snd dir].
  destruct e as [e|]; [discriminate|].
  destruct (m !! _) as [head|] eqn:Hlook; [|discriminate].
  intros [= ->]. exists f, m.
  split; [reflexivity|]. split; [exact Hread|]. split; [exact Hclose|].
  split; [reflexivity|]. split; [exact Hlook|].
  symmetry. apply Hfield. reflexivity.
Qed.

(** What [Head] returns depends on the filesystem and the root of the
    handle only, not on its [refs] field or on what was printed. *)
Lemma Head_frame (w1 w2 : World) :
  fs_ (dir w1) = fs_ (dir w2) →
  path (dir w1) = path (dir w2) →
  (seekable2.Head w1).1 = (seekable2.Head w2).1.
Proof.
  intros Hfs Hpath.
  pose proof (Refs_same w1 w2 Hfs Hpath) as Hrefs.
  rewrite !Head_full. cbv zeta. rewrite Hfs, Hpath, Hrefs.
  destruct (fs.Open _ _) as [f|e0]; [|reflexivity].
  destruct (readErr f) as [e1|]; [reflexivity|].
  destruct (closeErr f) as [e2|]; [reflexivity|].
  destruct (String.eqb _ ""); [reflexivity|].
  destruct (gitdir.Refs w2).1 as [[m [e|]]|p]; reflexivity.
Qed.

(** ** How the operations compose *)

Lemma Head_keeps_root (w : World) :
  fs_ (dir (seekable2.Head w).2) = fs_ (dir w)
  ∧ path (dir (seekable2.Head w).2) = path (dir w).
Proof.
  rewrite Head_full. cbv zeta.
  destruct (Refs_eq w) as (m & e & m' & Hrefs & _ & _).
  destruct (fs.Open _ _) as [f|e0]; [|by split].
  destruct (readErr f) as [e1|]; [by split|].
  destruct (closeErr f) as [e2|]; [by split|].
  destruct (String.eqb _ ""); [by split|].
  rewrite Hrefs. by split.
Qed.

(** [Get] and [Head] do not disturb each other or themselves: each
    returns the same after a call of the other, and the same when called
    again, although [Head] rewrites the [refs] field and both print. *)
Theorem Get_and_Head_independent `{Zlib} (h : Hash) (w : World) :
  (seekable2.Get h (seekable2.Head w).2).1 = (seekable2.Get h w).1
  ∧ (seekable2.Head (seekable2.Get h w).2).1 = (seekable2.Head w).1
  ∧ (seekable2.Head (seekable2.Head w).2).1 = (seekable2.Head w).1
  ∧ (seekable2.Get h (seekable2.Get h w).2).1 = (seekable2.Get h w).1.
Proof.
  destruct (Head_keeps_root w) as [Hfs Hpath].
  assert (Hdir : dir (seekable2.Get h w).2 = dir w) by (by rewrite Get_run).
  repeat split.
  - apply Get_frame; assumption.
  - apply Head_frame; rewrite Hdir; reflexivity.
  - apply Head_frame; assumption.
  - apply Get_frame; rewrite Hdir; reflexivity.
Qed.

(** ** Opening a repository *)

(** [New] checks that the path exists and nothing more: it returns a
    storage (whose handle has the filesystem, the path and no reference)
    exactly when [Stat] of the path succeeds, [ErrNotFound] and no
    storage when [Stat] says the path does not exist, and the error of
    [Stat] itself otherwise. *)
Theorem New_checks_existence (fsys : FS) (p : string) :
  (fs.Stat fsys p = None →
   seekable2.New fsys p = (Some {| fs_ := fsys; path := p; refs := ∅ |}, None))
  ∧ (∀ e, fs.Stat fsys p = Some e → IsNotExist e = true →
     seekable2.New fsys p = (None, Some ErrNotFound))
  ∧ (∀ e, fs.Stat fsys p = Some e → IsNotExist e = false →
     seekable2.New fsys p = (None, Some e))
  ∧ (∀ d, (seekable2.New fsys p).1 = Some d →
     fs.Stat fsys p = None ∧ (seekable2.New fsys p).2 = None).
Proof.
  unfold seekable2.New, gitdir.New.
  split; [intros ->; reflexivity|].
  split; [intros e -> ->; reflexivity|].
  split; [intros e -> ->; reflexivity|].
  intros d. destruct (fs.Stat fsys p) as [e|]; [|auto].
  destruct (IsNotExist e); discriminate.
Qed.

(** ** The further properties on the example repositories *)

Lemma Get_returns_only_success_witness :
  (None : option error) = None
  ∧ is_Some (Some (NewObject CommitObject 5 (list_byte_of_string "hello"))).
Proof.
  apply (@Get_returns_only_success stored.zlib fixture.H
           (fixture.world fixture.disk)).
  vm_compute. reflexivity.
Defined.

Lemma Get_filesystem_failure_panics_witness :
  (@seekable2.Get stored.zlib fixture.H (fixture.world fixture.diskFaulty)).1
  = Panic (PanicError (SysError EIO))
  ∧ (@seekable2.Get stored.zlib fixture.H (fixture.world fixture.diskLocked)).1
    = Panic (PanicError (SysError EACCES)).
Proof.
  split.
  - apply (proj1 (@Get_filesystem_failure_panics stored.zlib fixture.H
                    (fixture.world fixture.diskFaulty) (SysError EIO)));
      vm_compute; reflexivity.
  - apply (proj2 (@Get_filesystem_failure_panics stored.zlib fixture.H
                    (fixture.world fixture.diskLocked) (SysError EACCES)));
      vm_compute; reflexivity.
Defined.

Lemma Get_decode_failure_panics_witness :
  (@seekable2.Get stored.zlib fixture.H (fixture.world fixture.diskCorrupt)).1
  = Panic (PanicError ErrChecksum).
Proof.
  assert (Hstat : fs.Stat fixture.diskCorrupt
                    (gitdir.objectPath (dir (fixture.world fixture.diskCorrupt))
                       fixture.H) = None)
    by (vm_compute; reflexivity).
  assert (Hopen : fs.Open fixture.diskCorrupt
                    (gitdir.objectPath (dir (fixture.world fixture.diskCorrupt))
                       fixture.H) = inl fixture.badFile)
    by (vm_compute; reflexivity).
  apply (proj1 (@Get_decode_failure_panics stored.zlib fixture.H
                  (fixture.world fixture.diskCorrupt) fixture.badFile Hstat Hopen)
           (list_byte_of_string "hello")).
  vm_compute. reflexivity.
Defined.

Lemma Get_returns_iff_witness :
  (@seekable2.Get stored.zlib fixture.H (fixture.world fixture.disk)).1
  = Done (Some (NewObject CommitObject 5 (list_byte_of_string "hello")), None).
Proof.
  apply (@Get_returns_iff stored.zlib fixture.H (fixture.world fixture.disk)).
  split; [vm_compute; reflexivity|].
  exists fixture.objectFile. repeat split; vm_compute; reflexivity.
Defined.

Lemma inflate_error_policy_witness :
  @seekable2.inflate stored.zlib [] fixture.badFile
  = Done (list_byte_of_string "hello", Some ErrChecksum).
Proof.
  destruct (@inflate_error_policy stored.zlib [] fixture.badFile
              (Some fixture.helloUnchecked) None)
    as (_ & _ & Hcopy & _).
  - vm_compute. reflexivity.
  - apply (Hcopy fixture.helloUnchecked ErrChecksum); [right | |]; reflexivity.
Defined.

Lemma readObject_object_or_error_witness :
  ∃ cont, @seekable2.inflate stored.zlib [] fixture.objectFile = Done (cont, None).
Proof.
  destruct (@readObject_object_or_error stored.zlib fixture.objectFile
              (Some (NewObject CommitObject 5 (list_byte_of_string "hello"))) None)
    as [(_ & cont & Hinflate & _) | (Hnone & _)].
  - vm_compute. reflexivity.
  - exists cont. exact Hinflate.
  - discriminate Hnone.
Defined.

Lemma objectPath_injective_witness :
  fixture.H = Vector.const "170"%byte 20.
Proof.
  apply (objectPath_injective (dir (fixture.world fixture.disk))).
  vm_compute. reflexivity.
Defined.

Lemma Capabilities_outcome_witness :
  (gitdir.Capabilities (fixture.world fixture.disk)).1
  = Done ({[ "symref" := {| common.Name := "symref";
                            common.Values := ["HEAD:refs/heads/main"] |} ]},
          None).
Proof.
  destruct (Capabilities_outcome (fixture.world fixture.disk))
    as (_ & _ & _ & Hread).
  apply (Hread (fixture.headFile "ref: refs/heads/main")); reflexivity.
Defined.

Lemma Refs_overwrites_witness :
  (gitdir.Refs (fixture.world fixture.disk)).1
  = (gitdir.Refs {| dir := {| fs_ := fixture.disk; path := fixture.root;
                              refs := {[ "refs/heads/old" := ZeroHash ]} |};
                    stdout := [Text "refs/heads/main"] |}).1.
Proof.
  apply (Refs_overwrites (fixture.world fixture.disk)); reflexivity.
Defined.

Lemma Head_wraps_HEAD_failure_witness :
  (seekable2.Head (fixture.world fixture.diskNoHead)).1
  = Done (ZeroHash,
          Some (Errorf "%s %s"
                  [ArgString "cannot get HEAD reference:";
                   ArgError (SysError ENOENT)])).
Proof.
  rewrite (Head_wraps_HEAD_failure (fixture.world fixture.diskNoHead)
             ∅ (SysError ENOENT)); reflexivity.
Defined.

Lemma Head_wraps_Refs_failure_witness :
  (seekable2.Head (fixture.world fixture.diskBadRef)).1
  = Done (ZeroHash,
          Some (Errorf "%s %s"
                  [ArgString "cannot get HEAD reference:";
                   ArgError (SysError EACCES)])).
Proof.
  apply (Head_wraps_Refs_failure (fixture.world fixture.diskBadRef)
           (fixture.headFile "ref: refs/heads/main") ∅ (SysError EACCES));
    try (vm_compute; reflexivity).
  vm_compute. discriminate.
Defined.

Lemma Head_empty_HEAD_witness :
  (seekable2.Head (fixture.world fixture.diskEmptyHead)).1
  = Done (ZeroHash,
          Some (Errorf "%s HEAD reference not found"
                  [ArgString "cannot get HEAD reference:"])).
Proof.
  rewrite (Head_empty_HEAD (fixture.world fixture.diskEmptyHead)
             {| data := []; readErr := None; closeErr := None |});
    reflexivity.
Defined.

Lemma Head_success_only_if_witness :
  ∃ m, (gitdir.Refs (fixture.world fixture.disk)).1 = Done (m, None)
       ∧ m !! "refs/heads/main" = Some fixture.H.
Proof.
  destruct (Head_success_only_if (fixture.world fixture.disk) fixture.H)
    as (f & m & Hopen & _ & _ & Hrefs & Hlook & _).
  - vm_compute. reflexivity.
  - exists m. split; [exact Hrefs|].
    injection Hopen as <-. exact Hlook.
Defined.

Lemma New_checks_existence_witness :
  seekable2.New fixture.disk fixture.root
  = (Some (dir (fixture.world fixture.disk)), None)
  ∧ seekable2.New fixture.disk "/nowhere/.git" = (None, Some ErrNotFound).
Proof.
  destruct (New_checks_existence fixture.disk fixture.root) as (Hthere & _).
  destruct (New_checks_existence fixture.disk "/nowhere/.git")
    as (_ & Hmissing & _).
  split.
  - apply Hthere. reflexivity.
  - apply (Hmissing (SysError ENOENT)); reflexivity.
Defined.

(** ** White space that is not ASCII *)

Example TrimSpace_unicode :
  Strings.TrimSpace
    (fixture.nbsp ++ fixture.lineSeparator ++ " ref: x y "
       ++ fixture.lineSeparator ++ fixture.nbsp ++ fixture.LF)%string
  = "ref: x y"
  ∧ Strings.TrimSpace fixture.nbsp = ""
  ∧ Strings.TrimSpace (String (Ascii.ascii_of_nat 160) "")
    = String (Ascii.ascii_of_nat 160) "".
Proof. repeat split; vm_compute; reflexivity. Qed.

(** A no-break space after the name in [HEAD] is trimmed like a line
    feed: [Head] returns the hash of the branch. *)
Example Head_padded_HEAD :
  (seekable2.Head (fixture.world fixture.diskPadded)).1 = Done (fixture.H, None).
Proof. vm_compute. reflexivity. Qed.
